(** * h5features: the index and the reader, embedded and verified

    The development follows the Python sources
      - [h5features2/index.py]  ([Index], [LegacyIndex]),
      - [h5features/index.py]   ([Index], [IndexV1_0], [IndexV0_1]),
      - [h5features2/reader.py] ([Reader]),
      - [h5features2/dataset/dataset.py] ([Dataset]).

    An HDF5 group is a pair of dictionaries (datasets and attributes), a
    dataset is a typed array, Python exceptions are the [Raise] results of
    an error monad, and a method that mutates the group threads the group
    through a state monad that keeps the mutated group when it raises. *)

From Stdlib Require Import ZArith QArith List String Ascii Lia.
From stdpp Require Import gmap strings list fin_maps.
Import ListNotations.

Local Open Scope string_scope.
Local Open Scope list_scope.
Local Open Scope Z_scope.

(** ** Python exceptions and the error monad *)

Module Py.

(** The messages of the [IOError]s and of the [Exception] the reader raises. *)
Inductive message :=
| from_item_is_located_after_to_item
| no_entry_for_item
| from_time_is_larger_than_the_biggest_time
| to_time_is_smaller_than_the_smallest_time
| reading_sparse_features_not_yet_implemented
| version_is_not_supported
| is_not_a_HDF5_file
| is_not_a_valid_group.

Inductive exn :=
| IOError (m : message)
| Exception (m : message)
| IndexError
| KeyError (key : string)
| NameError (name : string)
| ValueError
| OverflowError
| TypeError.

Inductive result (A : Type) :=
| Ok (a : A)
| Raise (e : exn).
Arguments Ok {A} a.
Arguments Raise {A} e.

Definition bind {A B} (r : result A) (k : A -> result B) : result B :=
match r with
| Ok a => k a
| Raise e => Raise e
end.

(** [try: r except IndexError: raise e]. *)
Definition except_IndexError {A} (r : result A) (e : exn) : result A :=
match r with
| Raise IndexError => Raise e
| _ => r
end.

(** [try: r except ValueError: raise e]. *)
Definition except_ValueError {A} (r : result A) (e : exn) : result A :=
match r with
| Raise ValueError => Raise e
| _ => r
end.

Definition is_ok {A} (r : result A) : bool :=
match r with Ok _ => true | Raise _ => false end.

End Py.
Export Py.

Declare Scope py_scope.
Delimit Scope py_scope with py.
Notation "x <- r ;; k" := (bind r (fun x => k))
  (at level 100, r at next level, right associativity) : py_scope.
Local Open Scope py_scope.

(** ** 64-bit integers (numpy's [int64]) *)

Definition int64_min : Z := - 2 ^ 63.
Definition int64_max : Z := 2 ^ 63 - 1.

Definition in_int64 (z : Z) : Prop := int64_min <= z <= int64_max.

(** Two's complement wrap-around of an [int64] result. *)
Definition wrap64 (z : Z) : Z := (z + 2 ^ 63) mod 2 ^ 64 - 2 ^ 63.

Definition add64 (a b : Z) : Z := wrap64 (a + b).
Definition sub64 (a b : Z) : Z := wrap64 (a - b).

(** ** Unicode strings, as their code points *)

Definition ustring := list Z.

(** A literal of the sources as a unicode string. *)
Definition u (s : string) : ustring :=
  map (fun a => Z.of_N (N_of_ascii a)) (list_ascii_of_string s).

(** ** Sequences: indexing and slicing as Python does them *)

(** [l[i]] for a Python list or a numpy array: negative [i] counts from the
    end, out of range raises [IndexError]. *)
Definition py_getitem {A} (l : list A) (i : Z) : result A :=
  let n := Z.of_nat (length l) in
  let j := if i <? 0 then i + n else i in
  if (j <? 0) || (n <=? j) then Raise IndexError
  else match l !! Z.to_nat j with
       | Some x => Ok x
       | None => Raise IndexError
       end.

(** A bound of a slice, clipped as [slice.indices] does for step 1. *)
Definition slice_bound (n : Z) (i : Z) : Z :=
  if i <? 0 then Z.max (i + n) 0 else Z.min i n.

(** [l[start:stop]]; an omitted bound is [None]. *)
Definition py_slice {A} (l : list A) (start stop : option Z) : list A :=
  let n := Z.of_nat (length l) in
  let s := match start with Some i => slice_bound n i | None => 0 end in
  let e := match stop with Some j => slice_bound n j | None => n end in
  take (Z.to_nat (e - s)) (drop (Z.to_nat s) l).

(** [l.index(x)]: the first position of [x], [ValueError] when absent. *)
Fixpoint list_index (x : ustring) (l : list ustring) : result nat :=
  match l with
  | [] => Raise ValueError
  | y :: l' =>
      if decide (y = x) then Ok 0%nat
      else (i <- list_index x l' ;; Ok (S i))
  end.

(** ** numpy *)

(** [np.cumsum] of a list of integers, in [int64]. *)
Fixpoint cumsum_from (acc : Z) (l : list Z) : list Z :=
  match l with
  | [] => []
  | x :: l' => let acc' := add64 acc x in acc' :: cumsum_from acc' l'
  end.

Definition np_cumsum (l : list Z) : list Z := cumsum_from 0 l.

(** [np.where(cond)[0]]: the positions where the condition holds. *)
Fixpoint np_where_from {A} (i : Z) (cond : A -> bool) (a : list A) : list Z :=
  match a with
  | [] => []
  | x :: a' =>
      if cond x then i :: np_where_from (i + 1) cond a'
      else np_where_from (i + 1) cond a'
  end.

Definition np_where {A} (cond : A -> bool) (a : list A) : list Z :=
  np_where_from 0 cond a.

(** [np.split(ary, indices)] along the first axis: the pieces
    [ary[0:i0], ary[i0:i1], ..., ary[ik:]] (numpy's [array_split] slices
    between consecutive division points [[0] + indices + [Ntotal]]). *)
Fixpoint split_from {A} (ary : list A) (st : Z) (indices : list Z)
  : list (list A) :=
  match indices with
  | [] => [py_slice ary (Some st) (Some (Z.of_nat (length ary)))]
  | e :: rest => py_slice ary (Some st) (Some e) :: split_from ary e rest
  end.

Definition np_split {A} (ary : list A) (indices : list Z) : list (list A) :=
  split_from ary 0 indices.

(** A two-dimensional array: its rows, and the length of each row (which
    the rows themselves do not give when there is none). *)
Record ndarray2 := {
  ncols : nat;
  rows : list (list Q)
}.

Definition shape0 (x : ndarray2) : nat := length (rows x).


(** [x.T] *)
Definition transpose (x : ndarray2) : ndarray2 :=
  {| ncols := length (rows x);
     rows := map (fun j => map (fun r => nth j r 0%Q) (rows x))
               (seq 0 (ncols x)) |}.

(** [x[start:stop, :]] *)
Definition slice_rows (x : ndarray2) (start stop : option Z) : ndarray2 :=
  {| ncols := ncols x; rows := py_slice (rows x) start stop |}.

(** [x[:, start:stop]] *)
Definition slice_cols (x : ndarray2) (start stop : option Z) : ndarray2 :=
  {| ncols := length (py_slice (seq 0 (ncols x)) start stop);
     rows := map (fun r => py_slice r start stop) (rows x) |}.

(** [np.split(x, indices, axis=0)] *)
Definition np_split_rows (x : ndarray2) (indices : list Z) : list ndarray2 :=
  map (fun rs => {| ncols := ncols x; rows := rs |})
      (np_split (rows x) indices).

(** ** The HDF5 store *)

(** A dataset is a typed array. *)
Inductive dataset :=
| DInt (a : list Z)            (* int64 *)
| DFloat (a : list Q)          (* float64 *)
| DStr (a : list ustring)      (* strings *)
| DMat (a : ndarray2).         (* two-dimensional float64 *)

Inductive attr :=
| AStr (s : string)
| AInt (z : Z).

#[global] Instance attr_eq_dec : EqDecision attr.
Proof. solve_decision. Defined.

Record Group := {
  datasets : gmap string dataset;
  attrs : gmap string attr
}.

(** [dataset.shape[0]] *)
Definition ds_shape0 (d : dataset) : nat :=
  match d with
  | DInt a => length a
  | DFloat a => length a
  | DStr a => length a
  | DMat a => shape0 a
  end.

(** [group[name]] *)
Definition group_getitem (group : Group) (name : string) : result dataset :=
  match datasets group !! name with
  | Some d => Ok d
  | None => Raise (KeyError name)
  end.

(** [group.attrs[name]] *)
Definition attrs_getitem (group : Group) (name : string) : result attr :=
  match attrs group !! name with
  | Some a => Ok a
  | None => Raise (KeyError name)
  end.

Definition set_dataset (group : Group) (name : string) (d : dataset) : Group :=
  {| datasets := <[name := d]> (datasets group); attrs := attrs group |}.

(** The dataset that [Index.write] resizes and assigns is the one that
    [create] makes, of type [int64]; a dataset of another type there is
    outside the model and is reported as a [TypeError]. *)
Definition as_int (d : dataset) : result (list Z) :=
  match d with DInt a => Ok a | _ => Raise TypeError end.

(** [int(x)] of a float: the fractional part is cut. *)
Definition int_of_float (x : Q) : Z := Z.quot (Qnum x) (Zpos (Qden x)).

(** [[int(c) for c in dataset[...]]]: the integers of an integer dataset as
    they are, the floats of a float dataset cut to integers. A dataset of
    strings or of two dimensions is outside the model ([TypeError]). *)
Definition ints_of (d : dataset) : result (list Z) :=
  match d with
  | DInt a => Ok a
  | DFloat a => Ok (map int_of_float a)
  | _ => Raise TypeError
  end.

(** [np.int64(dataset[...])]: an integer array as it is, a float array
    converted element by element, the fractional part cut and a value
    outside [int64] turned into the smallest [int64], as the conversion of
    the processor does. A dataset of strings or of two dimensions is outside
    the model ([TypeError]). *)
Definition np_int64 (d : dataset) : result (list Z) :=
  match d with
  | DInt a => Ok a
  | DFloat a =>
      Ok (map (fun x =>
                 let z := int_of_float x in
                 if (int64_min <=? z) && (z <=? int64_max) then z
                 else int64_min) a)
  | _ => Raise TypeError
  end.

Definition as_float (d : dataset) : result (list Q) :=
  match d with DFloat a => Ok a | _ => Raise TypeError end.

Definition as_mat (d : dataset) : result ndarray2 :=
  match d with DMat a => Ok a | _ => Raise TypeError end.

(** [dataset.resize((n,))] of a one-dimensional dataset with an unlimited
    maximal shape: h5py refuses a negative size, which does not fit the
    unsigned sizes of HDF5 ([OverflowError]); a longer dataset is padded
    with the fill value 0, a shorter one is cut. *)
Definition h5_resize (a : list Z) (n : Z) : result (list Z) :=
  if n <? 0 then Raise OverflowError
  else Ok (take (Z.to_nat n) a ++ replicate (Z.to_nat n - length a)%nat 0).

(** [dataset[start:] = values]: h5py selects [start:] as a slice does,
    returns at once when the selection is empty, writes the values when
    there are as many as selected elements, broadcasts a single value, and
    raises when the shapes do not agree. *)
Definition h5_setslice (a : list Z) (start : Z) (values : list Z)
  : result (list Z) :=
  let n := Z.of_nat (length a) in
  let s := slice_bound n start in
  let count := Z.to_nat (n - s) in
  if (count =? 0)%nat then Ok a
  else if (length values =? count)%nat then Ok (take (Z.to_nat s) a ++ values)
  else match values with
       | [v] => Ok (take (Z.to_nat s) a ++ replicate count v)
       | _ => Raise TypeError
       end.

(** ** Methods that mutate the group

    A method that writes to the group is a function from the group to the
    group it leaves and its result: an exception raised after a mutation
    leaves the mutated group. *)

Definition action (A : Type) : Type := Group -> Group * result A.

Definition act_bind {A B} (a : action A) (k : A -> action B) : action B :=
  fun group =>
    match a group with
    | (group', Ok x) => k x group'
    | (group', Raise e) => (group', Raise e)
    end.

(** A computation that only reads the group. *)
Definition reads {A} (f : Group -> result A) : action A :=
  fun group => (group, f group).

(** A computation that does not depend on the group. *)
Definition pure {A} (r : result A) : action A := fun group => (group, r).

Declare Scope act_scope.
Delimit Scope act_scope with act.
Notation "x <- a ;; k" := (act_bind a (fun x => k))
  (at level 100, a at next level, right associativity) : act_scope.

(** [group[name][-1]] on a dataset: h5py takes a negative index from the
    end and raises [IndexError] when the index is out of range. *)
Definition h5_getitem (a : list Z) (i : Z) : result Z := py_getitem a i.

(** [group[name].resize((n,))] *)
Definition group_resize (name : string) (n : Z) : action unit :=
  fun group =>
    match (d <- group_getitem group name ;; a <- as_int d ;; h5_resize a n) with
    | Ok a' => (set_dataset group name (DInt a'), Ok tt)
    | Raise e => (group, Raise e)
    end.

(** [group[name][start:] = values] *)
Definition group_setslice (name : string) (start : Z) (values : list Z)
  : action unit :=
  fun group =>
    match (d <- group_getitem group name ;; a <- as_int d ;;
           h5_setslice a start values) with
    | Ok a' => (set_dataset group name (DInt a'), Ok tt)
    | Raise e => (group, Raise e)
    end.

(** ** The datasets handed to [Index.write]

    [Items] and [Features] derive from [Dataset]
    ([h5features2/dataset/dataset.py]); their own code is not among the
    sources. [Index.write] uses the name of the items dataset, the result
    of [items.continue_last_item(group)], which is taken as it comes, and
    the list [features.data] of the arrays of the new items. *)

Module Dataset.
Record t := { name : string }.

(** [__eq__] *)
Definition eq (self other : t) : bool := bool_decide (name self = name other).
End Dataset.

Module Items.
Record t := {
  name : string;
  continue_last_item : Group -> result bool
}.
End Items.

Module Features.
Record t := {
  name : string;
  data : list ndarray2
}.

(** [[x.shape[0] for x in features.data]] *)
Definition frame_counts (self : t) : list Z :=
  map (fun x => Z.of_nat (shape0 x)) (data self).
End Features.

(** ** [Index] ([h5features2/index.py] and [h5features/index.py]: the two
    classes have the same [write]) *)

Module Index.

Record t := { name : string }.

(** [Index()] *)
Definition new : t := {| name := "index" |}.

(** [create] (or [create_dataset]): an empty [int64] dataset; h5py refuses
    a name that is taken. The chunk size is of no consequence here. *)
Definition create (self : t) : action unit :=
  fun group =>
    match datasets group !! name self with
    | Some _ => (group, Raise ValueError)
    | None => (set_dataset group (name self) (DInt []), Ok tt)
    end.

Definition write (self : t) (items : Items.t) (features : Features.t)
  : action unit :=
  (d_items <- reads (fun group => group_getitem group (Items.name items)) ;;
   let nitm := ds_shape0 d_items in
   last_index <-
     (if (0 <? nitm)%nat
      then reads (fun group =>
                    d <- group_getitem group (name self) ;;
                    a <- as_int d ;;
                    h5_getitem a (-1))%py
      else pure (Ok (-1))) ;;
   let index :=
     map (fun c => add64 last_index c)
         (np_cumsum (Features.frame_counts features)) in
   d_index <- reads (fun group => group_getitem group (name self)) ;;
   let nidx := Z.of_nat (ds_shape0 d_index) in
   continue <- reads (Items.continue_last_item items) ;;
   let nidx := if continue : bool then nidx - 1 else nidx in
   _ <- group_resize (name self) (nidx + Z.of_nat (length index)) ;;
   group_setslice (name self) nidx index)%act.

End Index.

(** ** Text: [unichr], [str.join], [str.replace] and [str.split] *)

(** [unichr(i)]: the argument is taken as a C [int], with [OverflowError]
    for an integer that does not fit one, and [ValueError] for a C [int]
    outside the range of code points (of a Python built with four-byte
    unicode characters). *)
Definition unichr (i : Z) : result Z :=
  if (0 <=? i) && (i <? 1114112) then Ok i
  else if (- 2 ^ 31 <=? i) && (i <? 2 ^ 31) then Raise ValueError
  else Raise OverflowError.

(** [[f(c) for c in l]], stopping at the first exception. *)
Fixpoint for_each {A B} (f : A -> result B) (l : list A) : result (list B) :=
  match l with
  | [] => Ok []
  | c :: l' => (y <- f c ;; ys <- for_each f l' ;; Ok (y :: ys))
  end.

(** [s.startswith(p)] *)
Fixpoint startswith (s p : ustring) : bool :=
  match p, s with
  | [], _ => true
  | _ :: _, [] => false
  | a :: p', b :: s' => bool_decide (a = b) && startswith s' p'
  end.

(** [s.replace(old, new)]: the occurrences of [old] are found from left to
    right and do not overlap; [skip] counts the characters of a found
    occurrence that are still to be passed over. *)
Fixpoint replace_from (old new : ustring) (skip : nat) (s : ustring)
  : ustring :=
  match s with
  | [] => []
  | c :: s' =>
      match skip with
      | S k => replace_from old new k s'
      | O =>
          if startswith s old
          then new ++ replace_from old new (length old - 1) s'
          else c :: replace_from old new 0 s'
      end
  end.

Definition py_replace (s old new : ustring) : ustring :=
  match old with
  | [] => new ++ flat_map (fun c => c :: new) s
  | _ :: _ => replace_from old new 0 s
  end.

(** [c] put in front of the first piece. *)
Definition cons_first (c : Z) (pieces : list ustring) : list ustring :=
  match pieces with
  | [] => [[c]]
  | p :: ps => (c :: p) :: ps
  end.

(** [s.split(sep)]: the text between the occurrences of [sep], found from
    left to right without overlap; an empty separator is a [ValueError]. *)
Fixpoint split_at (sep : ustring) (skip : nat) (s : ustring) : list ustring :=
  match s with
  | [] => [[]]
  | c :: s' =>
      match skip with
      | S k => split_at sep k s'
      | O =>
          if startswith s sep
          then [] :: split_at sep (length sep - 1) s'
          else cons_first c (split_at sep 0 s')
      end
  end.

Definition py_split (s sep : ustring) : result (list ustring) :=
  match sep with
  | [] => Raise ValueError
  | _ :: _ => Ok (split_at sep 0 s)
  end.

(** [sep.join(pieces)] *)
Fixpoint py_join (sep : ustring) (pieces : list ustring) : ustring :=
  match pieces with
  | [] => []
  | [p] => p
  | p :: ps => p ++ sep ++ py_join sep ps
  end.

(** ** The index dictionaries the codecs return *)

Inductive pyval :=
| VList (l : list ustring)     (* a list of names *)
| VArray (d : dataset)         (* an array read from a dataset *)
| VAttr (a : attr)             (* the value of an attribute *)
| VBool (b : bool).

(** [list(dataset[...])] of a dataset of names. The lists of the index
    dictionaries are lists of names: a names dataset of another type is
    outside the model and is reported as a [TypeError]. *)
Definition as_str (d : dataset) : result (list ustring) :=
  match d with DStr a => Ok a | _ => Raise TypeError end.

(** [d[key]] *)
Definition dict_getitem (d : gmap string pyval) (key : string) : result pyval :=
  match d !! key with
  | Some v => Ok v
  | None => Raise (KeyError key)
  end.

(** In both modules [index.py], [Index.read] (and [IndexV1_0.read]) name a
    variable [g] in the branch of the sparse format. No [g] is bound: not
    in the method, whose parameters are [self] and [group], and not in the
    module, which binds [np], [nb_lines] (or [is_supported_version] and
    [_nb_per_chunk]) and its classes. Evaluating it raises [NameError]. *)
Definition unbound_g : result Group := Raise (NameError "g").

Definition is_sparse (format : attr) : bool :=
  bool_decide (format = AStr "sparse").

(** [h5features2/index.py] *)
Module H5features2.

(** [Index.read] *)
Definition Index_read (group : Group) : result (gmap string pyval) :=
  d <- group_getitem group "items" ;;
  items <- as_str d ;;
  d_index <- group_getitem group "index" ;;
  d_times <- group_getitem group "times" ;;
  format <- attrs_getitem group "format" ;;
  let index : gmap string pyval :=
    <["items" := VList items]> (<["index" := VArray d_index]>
    (<["times" := VArray d_times]> (<["format" := VAttr format]> ∅))) in
  if is_sparse format then
    g <- unbound_g ;;
    dim <- attrs_getitem g "dim" ;;
    let index := <["dim" := VAttr dim]> index in
    d_frames <- group_getitem g "frames" ;;
    Ok (<["frames" := VArray d_frames]> index)
  else Ok index.

(** The item names of [LegacyIndex.read]:
    [''.join([unichr(int(c)) for c in codes]).replace('/-', '/').split('/\\')] *)
Definition read_files (codes : list Z) : result (list ustring) :=
  chars <- for_each unichr codes ;;
  py_split (py_replace (py_join [] (map (fun c => [c]) chars)) (u "/-") (u "/"))
           (u "/\").

(** [LegacyIndex.read] *)
Definition LegacyIndex_read (group : Group) : result (gmap string pyval) :=
  d <- group_getitem group "files" ;;
  codes <- ints_of d ;;
  files <- read_files codes ;;
  d_index <- group_getitem group "index" ;;
  index64 <- np_int64 d_index ;;
  d_times <- group_getitem group "times" ;;
  format <- attrs_getitem group "format" ;;
  let index : gmap string pyval :=
    <["files" := VList files]> (<["index" := VArray (DInt index64)]>
    (<["times" := VArray d_times]> (<["format" := VAttr format]> ∅))) in
  if is_sparse format then
    dim <- attrs_getitem group "dim" ;;
    let index := <["dim" := VAttr dim]> index in
    d_lines <- group_getitem group "lines" ;;
    Ok (<["frames" := VArray d_lines]> index)
  else Ok index.

End H5features2.

(** [h5features/index.py] *)
Module H5features.

(** [Index.read], for version 1.1 *)
Definition Index_read (group : Group) : result (gmap string pyval) :=
  d <- group_getitem group "items" ;;
  items <- as_str d ;;
  d_index <- group_getitem group "index" ;;
  d_times <- group_getitem group "times" ;;
  format <- attrs_getitem group "format" ;;
  let index : gmap string pyval :=
    <["items" := VList items]> (<["index" := VArray d_index]>
    (<["times" := VArray d_times]> (<["format" := VAttr format]> ∅))) in
  if is_sparse format then
    g <- unbound_g ;;
    dim <- attrs_getitem g "dim" ;;
    let index := <["dim" := VAttr dim]> index in
    d_frames <- group_getitem g "frames" ;;
    Ok (<["frames" := VArray d_frames]> index)
  else Ok index.

(** [IndexV1_0.read] *)
Definition IndexV1_0_read (group : Group) : result (gmap string pyval) :=
  d <- group_getitem group "files" ;;
  items <- as_str d ;;
  d_index <- group_getitem group "file_index" ;;
  d_times <- group_getitem group "times" ;;
  format <- attrs_getitem group "format" ;;
  let index : gmap string pyval :=
    <["items" := VList items]> (<["index" := VArray d_index]>
    (<["times" := VArray d_times]> (<["format" := VAttr format]> ∅))) in
  if is_sparse format then
    g <- unbound_g ;;
    dim <- attrs_getitem g "dim" ;;
    let index := <["dim" := VAttr dim]> index in
    d_frames <- group_getitem g "frames" ;;
    Ok (<["frames" := VArray d_frames]> index)
  else Ok index.

(** [IndexV0_1.read]: the text of [LegacyIndex.read] *)
Definition IndexV0_1_read (group : Group) : result (gmap string pyval) :=
  H5features2.LegacyIndex_read group.

(** The three index classes. *)
Inductive index_class := IndexV0_1 | IndexV1_0 | Index.

(** [Index()], [IndexV1_0()] and [IndexV0_1()]: the name of the dataset
    of the offsets, which [IndexV0_1] inherits from [IndexV1_0]. *)
Definition instance (c : index_class) : Index.t :=
  match c with
  | Index => {| Index.name := "index" |}
  | IndexV1_0 | IndexV0_1 => {| Index.name := "file_index" |}
  end.

Definition read (c : index_class) (group : Group)
  : result (gmap string pyval) :=
  match c with
  | IndexV0_1 => IndexV0_1_read group
  | IndexV1_0 => IndexV1_0_read group
  | Index => Index_read group
  end.

(** [init_index(version)]; [is_supported_version] comes from the module
    [version], which is not among the sources, and is taken as given. *)
Definition init_index (is_supported_version : string -> bool)
    (version : string) : result index_class :=
  if negb (is_supported_version version)
  then Raise (IOError version_is_not_supported)
  else if bool_decide (version = "0.1") then Ok IndexV0_1
  else if bool_decide (version = "1.0") then Ok IndexV1_0
  else Ok Index.

End H5features.

(** ** [Reader] ([h5features2/reader.py]) *)

Definition as_names (v : pyval) : result (list ustring) :=
  match v with VList l => Ok l | _ => Raise TypeError end.

Definition as_int_array (v : pyval) : result (list Z) :=
  match v with VArray (DInt a) => Ok a | _ => Raise TypeError end.

(** The flag [index['legacy']] of a given index. The readers of the model
    hold a boolean flag: a given index whose flag is not a boolean is
    outside the model and is reported as a [TypeError]. *)
Definition as_bool (v : pyval) : result bool :=
  match v with VBool b => Ok b | _ => Raise TypeError end.

(** [a[key]] for a numpy array [a] of integers and a string [key]: the
    array has no named fields, and numpy raises ([IndexError]: only
    integers, slices, ... are valid indices). *)
Definition ndarray_field (a : list Z) (key : string) : result (list Q) :=
  Raise IndexError.

(** [format == 'dense'] for a value of the index dictionary *)
Definition is_dense (format : pyval) : bool :=
  match format with
  | VAttr a => bool_decide (a = AStr "dense")
  | _ => false
  end.

Module Reader.

Record t := {
  filename : string;
  groupname : string;
  group : Group;
  legacy : bool;
  index : gmap string pyval
}.

(** [__init__]. The file system is the function [h5files]: the groups of
    the HDF5 file of that name, [None] when it is not an HDF5 file. *)
Definition init (h5files : string -> option (gmap string Group))
    (filename groupname : string) (index : option (gmap string pyval))
  : result t :=
  match h5files filename with
  | None => Raise (IOError is_not_a_HDF5_file)
  | Some h5file =>
      match h5file !! groupname with
      | None => Raise (IOError is_not_a_valid_group)
      | Some group =>
          match index with
          | None =>
              let legacy :=
                negb (bool_decide (is_Some (attrs group !! "version"))) in
              index <- (if legacy then H5features2.LegacyIndex_read group
                        else H5features2.Index_read group) ;;
              Ok {| filename := filename; groupname := groupname;
                    group := group; legacy := legacy; index := index |}
          | Some index =>
              v <- dict_getitem index "legacy" ;;
              legacy <- as_bool v ;;
              Ok {| filename := filename; groupname := groupname;
                    group := group; legacy := legacy; index := index |}
          end
      end
  end.

(** [_get_item] *)
Definition _get_item (group : list ustring) (element : ustring)
  : result nat :=
  except_ValueError (list_index element group) (IOError no_entry_for_item).

(** [read], first part: the positions [item1] and [item2] of the items. *)
Definition read_items (self : t) (from_item to_item : option ustring)
  : result (list ustring * nat * nat) :=
  v <- dict_getitem (index self) "items" ;;
  items_group <- as_names v ;;
  to_item <-
    match to_item with
    | None =>
        match from_item with
        | None => py_getitem items_group (-1)
        | Some from_item => Ok from_item
        end
    | Some to_item => Ok to_item
    end ;;
  from_item <-
    match from_item with
    | None => py_getitem items_group 0
    | Some from_item => Ok from_item
    end ;;
  item1 <- _get_item items_group from_item ;;
  item2 <- _get_item items_group to_item ;;
  if negb (item1 <=? item2)%nat
  then Raise (IOError from_item_is_located_after_to_item)
  else Ok (items_group, item1, item2).

(** The start of an item: [0 if item == 0 else index_group[item - 1] + 1] *)
Definition item_start (index_group : list Z) (item : nat) : result Z :=
  if (item =? 0)%nat then Ok 0
  else (e <- py_getitem index_group (Z.of_nat item - 1) ;; Ok (add64 e 1)).

(** [read], second part: the offsets [i1] and [i2] of the first and of
    the last frame; [index_group] and [item1_start] are used again to
    split the result. *)
Definition read_bounds (self : t) (item1 item2 : nat)
    (from_time to_time : option Q) : result (list Z * Z * Z * Z) :=
  v <- dict_getitem (index self) "index" ;;
  index_group <- as_int_array v ;;
  item1_start <- item_start index_group item1 ;;
  item2_start <- item_start index_group item2 ;;
  item1_end <- py_getitem index_group (Z.of_nat item1) ;;
  item2_end <- py_getitem index_group (Z.of_nat item2) ;;
  i1 <-
    match from_time with
    | None => Ok item1_start
    | Some from_time =>
        all_times <- ndarray_field index_group "times" ;;
        let times :=
          py_slice all_times (Some item1_start) (Some (add64 item1_end 1)) in
        k <- except_IndexError
               (py_getitem (np_where (fun t => Qle_bool from_time t) times) 0)
               (IOError from_time_is_larger_than_the_biggest_time) ;;
        Ok (add64 item1_start k)
    end ;;
  i2 <-
    match to_time with
    | None => Ok item2_end
    | Some to_time =>
        all_times <- ndarray_field index_group "times" ;;
        let times :=
          py_slice all_times (Some item2_start) (Some (add64 item2_end 1)) in
        k <- except_IndexError
               (py_getitem (np_where (fun t => Qle_bool t to_time) times) (-1))
               (Exception to_time_is_smaller_than_the_smallest_time) ;;
        Ok (add64 item2_start k)
    end ;;
  Ok (index_group, item1_start, i1, i2).

(** [read], third part: the frames [i1] to [i2] and their times. *)
Definition read_data (self : t) (i1 i2 : Z) : result (ndarray2 * list Q) :=
  features_group <- group_getitem (group self) "features" ;;
  format <- dict_getitem (index self) "format" ;;
  if is_dense format then
      features_group <- as_mat features_group ;;
      let features :=
        if legacy self
        then transpose (slice_cols features_group (Some i1) (Some (add64 i2 1)))
        else slice_rows features_group (Some i1) (Some (add64 i2 1)) in
      d_times <- group_getitem (group self) "times" ;;
      all_times <- as_float d_times ;;
      Ok (features, py_slice all_times (Some i1) (Some (add64 i2 1)))
  else Raise (IOError reading_sparse_features_not_yet_implemented).

(** The interior boundaries of the items [item1] to [item2], counted
    from the start of [item1]: [index_group[item1:item2] - item1_start]. *)
Definition file_ends (index_group : list Z) (item1 item2 : nat)
    (item1_start : Z) : list Z :=
  map (fun e => sub64 e item1_start)
      (py_slice index_group (Some (Z.of_nat item1)) (Some (Z.of_nat item2))).

(** [read], last part: one array of frames and one of times by item. *)
Definition read_split (index_group : list Z) (item1 item2 : nat)
    (item1_start : Z) (features : ndarray2) (times : list Q)
  : list (list Q) * list ndarray2 :=
  if (item1 <? item2)%nat then
    let file_ends := file_ends index_group item1 item2 item1_start in
    let points := map (fun e => add64 e 1) file_ends in
    (np_split times points, np_split_rows features points)
  else ([times], [features]).

Definition read (self : t) (from_item to_item : option ustring)
    (from_time to_time : option Q)
  : result (list ustring * list (list Q) * list ndarray2) :=
  found <- read_items self from_item to_item ;;
  let '(items_group, item1, item2) := found in
  bounds <- read_bounds self item1 item2 from_time to_time ;;
  let '(index_group, item1_start, i1, i2) := bounds in
  data <- read_data self i1 i2 ;;
  let '(features, times) := data in
  let '(times, features) :=
    read_split index_group item1 item2 item1_start features times in
  let items :=
    py_slice items_group (Some (Z.of_nat item1)) (Some (Z.of_nat item2 + 1)) in
  Ok (items, times, features).

End Reader.

(** ** Stores for the examples *)

(** [n] frames of dimension 1 whose values are [v], [v+1], ... *)
Definition frames_from (v : Z) (n : nat) : ndarray2 :=
  {| ncols := 1; rows := map (fun k => [inject_Z (v + Z.of_nat k)]) (seq 0 n) |}.

Definition frames (n : nat) : ndarray2 := frames_from 0 n.

Definition times_from (v : Z) (n : nat) : list Q :=
  map (fun k => inject_Z (v + Z.of_nat k)) (seq 0 n).

Definition abc_group : Group :=
  {| datasets :=
       <["items" := DStr [u "a"; u "b"; u "c"]]>
       (<["index" := DInt [3; 6; 8]]>
       (<["times" := DFloat (times_from 1 4 ++ times_from 1 3 ++ times_from 1 2)]>
       (<["features" := DMat (frames_from 10 9)]> ∅)));
     attrs := <["format" := AStr "dense"]> (<["version" := AStr "1.0"]> ∅) |}.

(** The index of that group, and its reader. *)
Definition abc_index : gmap string pyval :=
  <["items" := VList [u "a"; u "b"; u "c"]]>
  (<["index" := VArray (DInt [3; 6; 8])]>
  (<["times" := VArray (DFloat (times_from 1 4 ++ times_from 1 3 ++ times_from 1 2))]>
  (<["format" := VAttr (AStr "dense")]> ∅))).

Definition abc : Reader.t :=
  {| Reader.filename := "f.h5"; Reader.groupname := "features";
     Reader.group := abc_group; Reader.legacy := false;
     Reader.index := abc_index |}.

Definition abc_files (filename : string) : option (gmap string Group) :=
  Some (<["features" := abc_group]> ∅).


(** ** Notions of the specification *)

Definition sum_list (l : list Z) : Z := fold_right Z.add 0 l.

(** The offsets as the specification words them: the [j]-th new end-offset
    is [last + fc[0] + ... + fc[j]]. *)
Definition prefix_sums (last : Z) (fc : list Z) : list Z :=
  map (fun j => last + sum_list (take (S j) fc)) (seq 0 (length fc)).
Arguments prefix_sums : simpl never.

(** [offsets[-1]] if [offsets] is non-empty else [-1] *)
Definition last_offset (offsets : list Z) : Z := List.last offsets (-1).

(** ** Writes for the examples *)

Definition store (names : list ustring) (offsets : list Z) : Group :=
  {| datasets := <["items" := DStr names]> (<["index" := DInt offsets]> ∅);
     attrs := ∅ |}.

(** The items of a write whose [continue_last_item] answers [b]. *)
Definition items_flag (b : bool) : Items.t :=
  {| Items.name := "items"; Items.continue_last_item := fun _ => Ok b |}.

(** The features of new items with the given numbers of frames. *)
Definition features_of (counts : list nat) : Features.t :=
  {| Features.name := "features"; Features.data := map frames counts |}.

(** ** A sequence of writes

    The writer is not among the sources; a write of new items is its call
    of [Index.write] followed by the writes of the datasets. *)

(** Modelled from the spec: [Items.write], which is not among the sources.
    Section 3 of the specification: the sequence of the item names is
    extended by every write, one name by item ([names.length ==
    offsets.length]); a write that continues no item appends the names of
    its items to the items dataset. *)
Definition Items_write (items_name : string) (names : list ustring)
  : action unit :=
  fun group =>
    match (d <- group_getitem group items_name ;; as_str d) with
    | Ok old => (set_dataset group items_name (DStr (old ++ names)), Ok tt)
    | Raise e => (group, Raise e)
    end.

(** The data of one write: the names of the new items and their frames. *)
Record batch := {
  new_items : list ustring;
  new_features : list ndarray2
}.

Definition batch_frame_counts (b : batch) : list Z :=
  map (fun x => Z.of_nat (shape0 x)) (new_features b).

(** One array of frames by item, each with at least one frame. *)
Definition positive_batch (b : batch) : Prop :=
  length (new_items b) = length (new_features b) /\
  Forall (fun x => (0 < shape0 x)%nat) (new_features b).

(** A write that continues no item: [continue_last_item] answers [False]. *)
Definition write_batch (self : Index.t) (items_name : string) (b : batch)
  : action unit :=
  (_ <- Index.write self
          {| Items.name := items_name;
             Items.continue_last_item := fun _ => Ok false |}
          {| Features.name := "features"; Features.data := new_features b |} ;;
   Items_write items_name (new_items b))%act.

Fixpoint writes (self : Index.t) (items_name : string) (bs : list batch)
  : action unit :=
  match bs with
  | [] => pure (Ok tt)
  | b :: bs' =>
      (_ <- write_batch self items_name b ;; writes self items_name bs')%act
  end.

(** The differences of consecutive offsets as the specification has them:
    [CumulativeIndex[i] - CumulativeIndex[i-1] - 1 == frame_count[i]]. *)
Definition differences_minus_one (cumulative fc : list Z) : Prop :=
  forall (i : nat) c p f, (0 < i)%nat ->
    cumulative !! i = Some c -> cumulative !! (i - 1)%nat = Some p ->
    fc !! i = Some f -> c - p - 1 = f.

(** The differences the cumulative sums have:
    [CumulativeIndex[i] - CumulativeIndex[i-1] == frame_count[i]]. *)
Definition differences (cumulative fc : list Z) : Prop :=
  forall (i : nat) c p f, (0 < i)%nat ->
    cumulative !! i = Some c -> cumulative !! (i - 1)%nat = Some p ->
    fc !! i = Some f -> c - p = f.

Definition strictly_increasing (cumulative : list Z) : Prop :=
  forall (i j : nat) a b, (i < j)%nat ->
    cumulative !! i = Some a -> cumulative !! j = Some b -> a < b.

(** [CumulativeIndex[0] == frame_count[0] - 1] *)
Definition first_offset (cumulative fc : list Z) : Prop :=
  forall c f, cumulative !! 0%nat = Some c -> fc !! 0%nat = Some f -> c = f - 1.

(** A write fails and leaves the stored index as it was. *)
Definition fails_and_keeps_index (self : Index.t) (items : Items.t)
    (features : Features.t) (group : Group) : Prop :=
  let after := Index.write self items features group in
  (exists e, snd after = Raise e) /\
  datasets (fst after) !! Index.name self = datasets group !! Index.name self.

(** ** The decoding of the legacy item names, as the specification words it *)

(** Every occurrence of the two characters [/-] replaced by [/]. *)
Fixpoint unescape (s : ustring) : ustring :=
  match s with
  | a :: ((b :: rest) as tl) =>
      if (a =? 47) && (b =? 45) then 47 :: unescape rest
      else a :: unescape tl
  | _ => s
  end.

(** The text cut at every occurrence of the two characters [/\]. *)
Fixpoint split_names (s : ustring) : list ustring :=
  match s with
  | [] => [[]]
  | a :: ((b :: rest) as tl) =>
      if (a =? 47) && (b =? 92) then [] :: split_names rest
      else cons_first a (split_names tl)
  | [a] => [[a]]
  end.

(** The integers taken as code points and concatenated, the escape
    sequence replaced, the text split on the delimiter. *)
Definition decode_names (codes : list Z) : list ustring :=
  split_names (unescape codes).

Definition code_point (c : Z) : Prop := 0 <= c < 1114112.

(** [sub] occurs in [s]. *)
Definition occurs_in (sub s : ustring) : Prop :=
  exists before after, s = before ++ sub ++ after.

(** ** Positions and ranges of items, as the specification words them *)

(** [position_of]: [p] is the first rank at which [name] stands. *)
Definition first_rank (names : list ustring) (name : ustring) (p : nat) : Prop :=
  names !! p = Some name /\ forall q, (q < p)%nat -> names !! q <> Some name.

(** One item of four frames, at the times 1, 2, 3 and 4. *)
Definition one_item_group : Group :=
  {| datasets :=
       <["items" := DStr [u "a"]]>
       (<["index" := DInt [3]]>
       (<["times" := DFloat (times_from 1 4)]>
       (<["features" := DMat (frames_from 10 4)]> ∅)));
     attrs := <["format" := AStr "dense"]> (<["version" := AStr "1.0"]> ∅) |}.

Definition one_item : Reader.t :=
  {| Reader.filename := "f.h5"; Reader.groupname := "features";
     Reader.group := one_item_group; Reader.legacy := false;
     Reader.index :=
       <["items" := VList [u "a"]]>
       (<["index" := VArray (DInt [3])]>
       (<["times" := VArray (DFloat (times_from 1 4))]>
       (<["format" := VAttr (AStr "dense")]> ∅))) |}.

(** [frame_range_of]: the first frame of the item at position [p] is [0]
    for [p = 0] and [CumulativeIndex[p-1] + 1] otherwise; its last frame
    is [CumulativeIndex[p]]. *)
Definition item_first (offsets : list Z) (p : nat) : Z :=
  match p with
  | O => 0
  | S q => nth q offsets 0 + 1
  end.

Definition item_last (offsets : list Z) (p : nat) : Z := nth p offsets 0.

(** The part of an array of frames (or of times) that is the item at [p]. *)
Definition item_slice {A} (offsets : list Z) (frames : list A) (p : nat)
  : list A :=
  py_slice frames (Some (item_first offsets p)) (Some (item_last offsets p + 1)).

(** The cumulative index of a store of [nframes] frames: non-decreasing
    offsets of frames of the store ([-1] for items without frames at the
    start). *)
Definition wf_index (offsets : list Z) (nframes : nat) : Prop :=
  (forall (i j : nat) a b, (i <= j)%nat ->
     offsets !! i = Some a -> offsets !! j = Some b -> a <= b) /\
  Forall (fun e => -1 <= e < Z.of_nat nframes) offsets.

(** The same item in a legacy store: the names are packed code points,
    the features are stored dimensions by frames, and there is no
    [version] attribute. *)
Definition legacy_item_group : Group :=
  {| datasets :=
       <["files" := DInt (u "a")]>
       (<["index" := DInt [3]]>
       (<["times" := DFloat (times_from 1 4)]>
       (<["features" := DMat (transpose (frames_from 10 4))]> ∅)));
     attrs := <["format" := AStr "dense"]> ∅ |}.

Definition legacy_item_files (filename : string)
  : option (gmap string Group) :=
  Some (<["features" := legacy_item_group]> ∅).

(** The reader of the legacy store, as [Reader.__init__] builds it. *)
Definition legacy_item : Reader.t :=
  {| Reader.filename := "f.h5"; Reader.groupname := "features";
     Reader.group := legacy_item_group; Reader.legacy := true;
     Reader.index :=
       <["files" := VList [u "a"]]>
       (<["index" := VArray (DInt [3])]>
       (<["times" := VArray (DFloat (times_from 1 4))]>
       (<["format" := VAttr (AStr "dense")]> ∅))) |}.

(** A reader of the legacy store that is given its index, with the names
    under [items]. *)
Definition legacy_item_given : Reader.t :=
  {| Reader.filename := "f.h5"; Reader.groupname := "features";
     Reader.group := legacy_item_group; Reader.legacy := true;
     Reader.index := <["legacy" := VBool true]> (Reader.index one_item) |}.

(** Sparse stores, one by layout: an item of two frames, the attribute
    [dim] and the side array of the frames. *)
Definition sparse_group : Group :=
  {| datasets :=
       <["items" := DStr [u "a"]]>
       (<["index" := DInt [1]]>
       (<["times" := DFloat (times_from 1 2)]>
       (<["frames" := DInt [2; 5]]> ∅)));
     attrs := <["format" := AStr "sparse"]> (<["dim" := AInt 3]>
              (<["version" := AStr "1.1"]> ∅)) |}.

Definition sparse_v1_group : Group :=
  {| datasets :=
       <["files" := DStr [u "a"]]>
       (<["file_index" := DInt [1]]>
       (<["times" := DFloat (times_from 1 2)]>
       (<["frames" := DInt [2; 5]]> ∅)));
     attrs := <["format" := AStr "sparse"]> (<["dim" := AInt 3]>
              (<["version" := AStr "1.0"]> ∅)) |}.

Definition sparse_legacy_group : Group :=
  {| datasets :=
       <["files" := DInt (u "a")]>
       (<["index" := DInt [1]]>
       (<["times" := DFloat (times_from 1 2)]>
       (<["lines" := DInt [2; 5]]> ∅)));
     attrs := <["format" := AStr "sparse"]> (<["dim" := AInt 3]> ∅) |}.

(** ** Further notions for the properties of the code *)

(** An action leaves the attributes and every dataset but [name] as they
    are, whether it returns or raises. *)
Definition touches_only {A} (name : string) (a : action A) : Prop :=
  forall group,
    attrs (fst (a group)) = attrs group /\
    forall key, key <> name ->
      datasets (fst (a group)) !! key = datasets group !! key.

(** The offset before the first new frame, as [Index.write] takes it: the
    last stored offset when the items dataset is not empty, [-1] when it
    is. *)
Definition write_base (d_items : dataset) (offsets : list Z) : Z :=
  if (0 <? ds_shape0 d_items)%nat then last_offset offsets else -1.

Definition nondecreasing (l : list Z) : Prop :=
  forall (i j : nat) a b, (i <= j)%nat ->
    l !! i = Some a -> l !! j = Some b -> a <= b.

(** The item of [one_item_group] in the layout of the version 1.0. *)
Definition v1_item_group : Group :=
  {| datasets :=
       <["files" := DStr [u "a"]]>
       (<["file_index" := DInt [3]]>
       (<["times" := DFloat (times_from 1 4)]>
       (<["features" := DMat (frames_from 10 4)]> ∅)));
     attrs := <["format" := AStr "dense"]> (<["version" := AStr "1.0"]> ∅) |}.

(** A group of the layout 1.0 with its names and offsets also under the
    keys of the current layout. *)
Definition as_current (group : Group) (files file_index : dataset) : Group :=
  {| datasets := <["items" := files]> (<["index" := file_index]> (datasets group));
     attrs := attrs group |}.

(** A name without the character [/]. *)
Definition slash_free (name : ustring) : Prop :=
  Forall code_point name /\ 47 ∉ name.

(** The error of [unichr] for an integer that is not a code point. *)
Definition unichr_error (c : Z) : exn :=
  if (- 2 ^ 31 <=? c) && (c <? 2 ^ 31) then ValueError else OverflowError.

(** * Properties *)

(** ** Arithmetic in [int64] *)

Lemma wrap64_id z : in_int64 z -> wrap64 z = z.
Proof.
  unfold in_int64, int64_min, int64_max, wrap64. intros H.
  rewrite Z.mod_small; lia.
Qed.

Lemma add64_exact a b : in_int64 (a + b) -> add64 a b = a + b.
Proof. apply wrap64_id. Qed.

Lemma sub64_exact a b : in_int64 (a - b) -> sub64 a b = a - b.
Proof. apply wrap64_id. Qed.

(** ** Sums *)

Lemma sum_list_nonneg l : Forall (fun x => 0 <= x) l -> 0 <= sum_list l.
Proof. induction 1; simpl; lia. Qed.

Lemma prefix_sums_cons last x fc :
  prefix_sums last (x :: fc) = (last + x) :: prefix_sums (last + x) fc.
Proof.
  unfold prefix_sums. simpl. f_equal.
  - f_equal. lia.
  - rewrite <- seq_shift, map_map. apply map_ext. intros j. simpl. lia.
Qed.

Lemma wrap64_add_l a b : wrap64 (wrap64 a + b) = wrap64 (a + b).
Proof.
  unfold wrap64. f_equal.
  replace ((a + 2 ^ 63) mod 2 ^ 64 - 2 ^ 63 + b + 2 ^ 63)
    with ((a + 2 ^ 63) mod 2 ^ 64 + b) by lia.
  rewrite Zplus_mod_idemp_l. f_equal. lia.
Qed.

Lemma wrap64_add_r a b : wrap64 (a + wrap64 b) = wrap64 (a + b).
Proof. rewrite (Z.add_comm a), wrap64_add_l. f_equal. lia. Qed.

(** The running sum in [int64] is the exact one, wrapped. *)
Lemma cumsum_from_wrap fc : forall acc,
  cumsum_from (wrap64 acc) fc = map wrap64 (prefix_sums acc fc).
Proof.
  induction fc as [|x fc IH]; intros acc; [reflexivity|].
  rewrite prefix_sums_cons. simpl. unfold add64.
  rewrite wrap64_add_l. f_equal. apply IH.
Qed.

Lemma prefix_sums_length last fc : length (prefix_sums last fc) = length fc.
Proof. unfold prefix_sums. now rewrite length_map, length_seq. Qed.

Lemma prefix_sums_shift a b fc :
  map (fun c => a + c) (prefix_sums b fc) = prefix_sums (a + b) fc.
Proof.
  unfold prefix_sums. rewrite map_map. apply map_ext. intros j. lia.
Qed.

Lemma prefix_sums_bounds fc : forall last,
  Forall (fun x => 0 <= x) fc ->
  Forall (fun v => last <= v <= last + sum_list fc) (prefix_sums last fc).
Proof.
  induction fc as [|x fc IH]; intros last Hpos.
  - constructor.
  - inversion Hpos as [|? ? Hx Hfc]; subst. rewrite prefix_sums_cons.
    pose proof (sum_list_nonneg _ Hfc) as Hs. simpl. constructor; [lia|].
    eapply List.Forall_impl; [|apply (IH (last + x) Hfc)].
    simpl. intros v Hv. lia.
Qed.

Lemma frame_counts_nonneg features :
  Forall (fun x => 0 <= x) (Features.frame_counts features).
Proof.
  unfold Features.frame_counts. apply List.Forall_forall.
  intros x Hx. apply in_map_iff in Hx as (y & <- & _). lia.
Qed.

(** [last_index + np.cumsum(frame counts)], without overflow. *)
Lemma new_offsets_exact last fc :
  Forall (fun x => 0 <= x) fc ->
  in_int64 last -> last + sum_list fc <= int64_max ->
  map (fun c => add64 last c) (np_cumsum fc) = prefix_sums last fc.
Proof.
  intros Hpos Hlast Hmax. unfold in_int64 in Hlast.
  unfold np_cumsum. change 0 with (wrap64 0) at 1.
  rewrite cumsum_from_wrap, map_map.
  replace (prefix_sums last fc) with (prefix_sums (last + 0) fc)
    by (f_equal; lia).
  rewrite <- prefix_sums_shift. apply map_ext_Forall.
  eapply List.Forall_impl; [|apply (prefix_sums_bounds fc 0 Hpos)].
  simpl. intros v Hv. unfold add64. rewrite wrap64_add_r.
  apply wrap64_id. unfold in_int64. lia.
Qed.

(** ** [Index.write] *)

(** Resizing to [nidx + len(values)] and writing [values] from [nidx] on
    keeps the first [nidx] offsets and puts the values behind them. *)
Lemma resize_setslice (offsets values : list Z) (nidx : nat) :
  (nidx <= length offsets)%nat ->
  exists resized,
    h5_resize offsets (Z.of_nat nidx + Z.of_nat (length values)) = Ok resized /\
    h5_setslice resized (Z.of_nat nidx) values = Ok (take nidx offsets ++ values).
Proof.
  intros Hn. unfold h5_resize.
  destruct (Z.ltb_spec (Z.of_nat nidx + Z.of_nat (length values)) 0) as [?|_];
    [lia|].
  eexists. split; [reflexivity|].
  rewrite <- Nat2Z.inj_add, Nat2Z.id.
  set (resized := take (nidx + length values) offsets ++ _).
  assert (Hlen : length resized = (nidx + length values)%nat).
  { subst resized. rewrite length_app, length_take, length_replicate. lia. }
  assert (Hkeep : take nidx resized = take nidx offsets).
  { subst resized. rewrite take_app_le by (rewrite length_take; lia).
    rewrite take_take. f_equal. lia. }
  unfold h5_setslice, slice_bound. rewrite Hlen.
  destruct (Z.ltb_spec (Z.of_nat nidx) 0) as [?|_]; [lia|].
  rewrite Z.min_l by lia.
  replace (Z.to_nat (Z.of_nat (nidx + length values) - Z.of_nat nidx))
    with (length values) by lia.
  rewrite Nat2Z.id, Hkeep.
  destruct (Nat.eqb_spec (length values) 0) as [H0|H0].
  - destruct values; [|discriminate]. rewrite app_nil_r, <- Hkeep.
    rewrite take_ge by lia. reflexivity.
  - rewrite Nat.eqb_refl. reflexivity.
Qed.

Lemma set_dataset_twice group name d d' :
  set_dataset (set_dataset group name d) name d' = set_dataset group name d'.
Proof. unfold set_dataset. simpl. now rewrite insert_insert_eq. Qed.

Lemma lookup_last {A} (a : list A) (d : A) :
  a <> [] -> a !! pred (length a) = Some (List.last a d).
Proof.
  induction a as [|x a IH]; [congruence|]. intros _.
  destruct a as [|y a]; [reflexivity|].
  change (List.last (x :: y :: a) d) with (List.last (y :: a) d).
  rewrite <- IH by congruence. reflexivity.
Qed.

Lemma h5_getitem_last (a : list Z) :
  a <> [] -> h5_getitem a (-1) = Ok (last_offset a).
Proof.
  intros Hne. unfold h5_getitem, py_getitem, last_offset.
  destruct (Z.ltb_spec (-1) 0) as [_|?]; [|lia].
  assert (Hlen : (0 < length a)%nat) by (destruct a; [congruence|simpl; lia]).
  destruct (Z.ltb_spec (-1 + Z.of_nat (length a)) 0) as [?|_]; [lia|].
  destruct (Z.leb_spec (Z.of_nat (length a)) (-1 + Z.of_nat (length a)))
    as [?|_]; [lia|]. simpl.
  replace (Z.to_nat (-1 + Z.of_nat (length a))) with (pred (length a)) by lia.
  rewrite (lookup_last a (-1)) by assumption. reflexivity.
Qed.

(** The run of a write that does not overflow. *)
Lemma write_run (self : Index.t) (items : Items.t)
    (features : Features.t) (group : Group) (d_items : dataset)
    (offsets : list Z) (continue : bool) :
  datasets group !! Items.name items = Some d_items ->
  datasets group !! Index.name self = Some (DInt offsets) ->
  ds_shape0 d_items = length offsets ->
  Items.continue_last_item items group = Ok continue ->
  (continue = true -> offsets <> []) ->
  in_int64 (last_offset offsets) ->
  last_offset offsets + sum_list (Features.frame_counts features) <= int64_max ->
  Index.write self items features group =
    (set_dataset group (Index.name self)
       (DInt ((if continue then removelast offsets else offsets) ++
              prefix_sums (last_offset offsets)
                          (Features.frame_counts features))),
     Ok tt).
Proof.
  intros Hitems Hindex Hlen Hcont Hne Hlast Hmax.
  pose proof (frame_counts_nonneg features) as Hpos.
  set (fc := Features.frame_counts features) in *.
  set (kept := if continue then removelast offsets else offsets).
  assert (Hkept : exists nidx : nat,
             (nidx <= length offsets)%nat /\ kept = take nidx offsets /\
             (if continue then Z.of_nat (length offsets) - 1
              else Z.of_nat (length offsets)) = Z.of_nat nidx).
  { subst kept. destruct continue.
    - exists (pred (length offsets)).
      assert (0 < length offsets)%nat
        by (destruct offsets; [now elim Hne|simpl; lia]).
      repeat split; [lia|apply removelast_firstn_len|lia].
    - exists (length offsets). repeat split; [lia|]. now rewrite take_ge. }
  destruct Hkept as (nidx & Hnidx & -> & Hz).
  assert (Hlast_index :
            (if (0 <? ds_shape0 d_items)%nat
             then reads (fun group =>
                           d <- group_getitem group (Index.name self) ;;
                           a <- as_int d ;; h5_getitem a (-1))
             else pure (Ok (-1))) group = (group, Ok (last_offset offsets))).
  { rewrite Hlen. destruct offsets as [|o offsets'] eqn:Hoff; [reflexivity|].
    rewrite <- Hoff in *. subst offsets.
    replace (0 <? length (o :: offsets'))%nat with true by reflexivity.
    unfold reads, group_getitem. rewrite Hindex. simpl bind.
    now rewrite h5_getitem_last. }
  destruct (resize_setslice offsets (prefix_sums (last_offset offsets) fc)
              nidx Hnidx) as (resized & Hresize & Hset).
  unfold Index.write, act_bind.
  unfold reads at 1. unfold group_getitem at 1. rewrite Hitems.
  rewrite Hlast_index.
  unfold reads at 1. unfold group_getitem at 1. rewrite Hindex.
  unfold reads at 1. rewrite Hcont.
  fold fc. rewrite (new_offsets_exact _ _ Hpos Hlast Hmax).
  simpl ds_shape0. rewrite Hz.
  unfold group_resize, group_getitem. rewrite Hindex. simpl bind.
  rewrite Hresize.
  unfold group_setslice, group_getitem, set_dataset at 1. simpl datasets.
  rewrite lookup_insert_eq. simpl bind. rewrite Hset.
  fold (set_dataset group (Index.name self) (DInt resized)).
  now rewrite set_dataset_twice.
Qed.

(** C1. A write of new items with frame counts [fc] to a store whose index
    holds [offsets] (one name by offset, no overflow of [int64]) stores the
    prefix sums [last + fc[0] + ... + fc[j]], where [last] is
    [offsets[-1]], or [-1] for an empty index. Without continuation they
    are appended to the offsets. When the write continues the last item,
    the sum of the first new item overwrites the last existing slot, and
    only the remaining new items append slots. *)
Theorem Index_write_offsets (self : Index.t) (items : Items.t)
    (features : Features.t) (group : Group) (d_items : dataset)
    (offsets : list Z) (continue : bool) :
  datasets group !! Items.name items = Some d_items ->
  datasets group !! Index.name self = Some (DInt offsets) ->
  ds_shape0 d_items = length offsets ->
  Items.continue_last_item items group = Ok continue ->
  (continue = true -> offsets <> []) ->
  in_int64 (last_offset offsets) ->
  last_offset offsets + sum_list (Features.frame_counts features) <= int64_max ->
  let fc := Features.frame_counts features in
  let last := last_offset offsets in
  exists updated,
    Index.write self items features group =
      (set_dataset group (Index.name self) (DInt updated), Ok tt) /\
    (continue = false -> updated = offsets ++ prefix_sums last fc) /\
    (continue = true ->
       updated = removelast offsets ++ prefix_sums last fc /\
       forall f0 rest, fc = f0 :: rest ->
         updated !! (length offsets - 1)%nat = Some (last + f0) /\
         length updated = (length offsets + length rest)%nat).
Proof.
  intros Hitems Hindex Hlen Hcont Hne Hlast Hmax fc last.
  eexists. split; [|split].
  - apply (write_run self items features group d_items offsets continue);
      assumption.
  - intros ->. reflexivity.
  - intros ->. split; [reflexivity|]. intros f0 rest Hfc.
    specialize (Hne eq_refl).
    assert (Hrl : length (removelast offsets) = (length offsets - 1)%nat).
    { rewrite removelast_firstn_len, length_take. lia. }
    fold fc. rewrite Hfc, prefix_sums_cons. split.
    + rewrite lookup_app_r by lia. rewrite Hrl, Nat.sub_diag. reflexivity.
    + rewrite length_app, Hrl. simpl. rewrite prefix_sums_length.
      destruct offsets; [congruence|simpl; lia].
Qed.

(** Item A holds 5 frames; a write continues it with 3 frames and adds an
    item of 2 frames: one slot is overwritten, one is appended. *)
Lemma Index_write_offsets_witness :
  exists updated,
    Index.write Index.new (items_flag true) (features_of [3; 2]%nat)
      (store [u "A"] [4]) =
      (set_dataset (store [u "A"] [4]) "index" (DInt updated), Ok tt) /\
    (true = false -> updated = [4] ++ prefix_sums 4 [3; 2]) /\
    (true = true ->
       updated = removelast [4] ++ prefix_sums 4 [3; 2] /\
       forall f0 rest, [3; 2] = f0 :: rest ->
         updated !! (1 - 1)%nat = Some (4 + f0) /\
         length updated = (1 + length rest)%nat).
Proof.
  apply (Index_write_offsets Index.new (items_flag true)
           (features_of [3; 2]%nat) (store [u "A"] [4]) (DStr [u "A"]) [4] true).
  - reflexivity.
  - reflexivity.
  - reflexivity.
  - reflexivity.
  - discriminate.
  - split; vm_compute; discriminate.
  - vm_compute. discriminate.
Defined.

Lemma set_dataset_same (group : Group) (name : string) (d : dataset) :
  datasets group !! name = Some d -> set_dataset group name d = group.
Proof.
  intros H. destruct group as [ds ats]. unfold set_dataset. simpl in *.
  now rewrite insert_id.
Qed.

Lemma cumsum_from_length (fc : list Z) :
  forall acc, length (cumsum_from acc fc) = length fc.
Proof. induction fc as [|x fc IH]; intros acc; simpl; [|rewrite IH]; easy. Qed.

(** The end of a continuing write to an index without offsets, where the
    first slot to assign is [-1]: by the number of the new offsets, the
    resize is refused, or nothing is selected and nothing written, or one
    slot is selected for several offsets. *)
Lemma resize_setslice_from_minus_one (values : list Z) :
  match values with
  | [] => h5_resize [] (0 - 1 + Z.of_nat (length values)) = Raise OverflowError
  | [v] =>
      h5_resize [] (0 - 1 + Z.of_nat (length values)) = Ok [] /\
      h5_setslice [] (0 - 1) values = Ok []
  | _ :: _ :: rest =>
      h5_resize [] (0 - 1 + Z.of_nat (length values))
      = Ok (replicate (S (length rest)) 0) /\
      h5_setslice (replicate (S (length rest)) 0) (0 - 1) values
      = Raise TypeError
  end.
Proof.
  destruct values as [|v [|w rest]]; [reflexivity|split; reflexivity|].
  split.
  - unfold h5_resize.
    destruct (Z.ltb_spec (0 - 1 + Z.of_nat (length (v :: w :: rest))) 0)
      as [H|_]; [simpl length in H; lia|].
    rewrite take_nil. cbn [app length]. f_equal. f_equal.
    simpl length. lia.
  - unfold h5_setslice, slice_bound. rewrite length_replicate.
    destruct (Z.ltb_spec (0 - 1) 0) as [_|?]; [|lia].
    replace (Z.to_nat (Z.of_nat (S (length rest))
                       - Z.max (0 - 1 + Z.of_nat (S (length rest))) 0))
      with 1%nat by lia.
    reflexivity.
Qed.

(** C7, as the code has it. [Index.write] has no check of its own for a
    continuation of nothing. A write that continues the last item of an
    index without offsets stores no offset of the new items: it raises, or
    it returns with the group as it was. With names in the items dataset it
    raises where it reads the last offset, and without a new array where it
    resizes, the group being left as it was; on a store without names it
    returns, the index still empty, for one new array; for more than one it
    raises on the assignment, after the resize. *)
Theorem Index_write_continue_empty_index (self : Index.t) (items : Items.t)
    (features : Features.t) (group : Group) (d_items : dataset) :
  datasets group !! Items.name items = Some d_items ->
  datasets group !! Index.name self = Some (DInt []) ->
  Items.continue_last_item items group = Ok true ->
  let after := Index.write self items features group in
  ((exists e, snd after = Raise e) \/ after = (group, Ok tt)) /\
  ((0 < ds_shape0 d_items)%nat -> after = (group, Raise IndexError)) /\
  (ds_shape0 d_items = 0%nat -> Features.data features = [] ->
   after = (group, Raise OverflowError)) /\
  (ds_shape0 d_items = 0%nat -> forall x, Features.data features = [x] ->
   after = (group, Ok tt)) /\
  (ds_shape0 d_items = 0%nat ->
   forall x y rest, Features.data features = x :: y :: rest ->
   after = (set_dataset group (Index.name self)
              (DInt (replicate (S (length rest)) 0)),
            Raise TypeError)).
Proof.
  intros Hitems Hindex Hcont after.
  assert (Hnames : (0 < ds_shape0 d_items)%nat ->
                   after = (group, Raise IndexError)).
  { intros Hn. subst after. unfold Index.write, act_bind.
    unfold reads at 1. unfold group_getitem at 1. rewrite Hitems.
    apply Nat.ltb_lt in Hn. rewrite Hn.
    unfold reads at 1. unfold group_getitem. rewrite Hindex. reflexivity. }
  assert (Hrun : ds_shape0 d_items = 0%nat ->
    after =
    match Features.data features with
    | [] => (group, Raise OverflowError)
    | [_] => (group, Ok tt)
    | _ :: _ :: rest =>
        (set_dataset group (Index.name self)
           (DInt (replicate (S (length rest)) 0)), Raise TypeError)
    end).
  { intros Hn. subst after. unfold Index.write, act_bind.
    unfold reads at 1. unfold group_getitem at 1. rewrite Hitems, Hn.
    cbn [Nat.ltb Nat.leb pure].
    unfold reads at 1. unfold group_getitem at 1. rewrite Hindex.
    unfold reads at 1. rewrite Hcont. cbn [ds_shape0 length].
    change (Z.of_nat 0) with 0.
    set (index := map (fun c => add64 (-1) c)
                      (np_cumsum (Features.frame_counts features))).
    assert (Hlen : length index = length (Features.data features)).
    { subst index. unfold np_cumsum, Features.frame_counts.
      now rewrite length_map, cumsum_from_length, length_map. }
    pose proof (resize_setslice_from_minus_one index) as Htail.
    unfold group_resize, group_setslice, group_getitem.
    rewrite Hindex. cbn [bind as_int].
    destruct (Features.data features) as [|x [|y rest]];
      destruct index as [|v [|w index']]; try discriminate Hlen.
    - now rewrite Htail.
    - destruct Htail as [-> Hset]. unfold set_dataset at 1. cbn [datasets].
      rewrite lookup_insert_eq. cbn [bind as_int]. rewrite Hset.
      fold (set_dataset group (Index.name self) (DInt [])).
      now rewrite set_dataset_twice, set_dataset_same.
    - assert (Hrest : length index' = length rest)
        by (simpl in Hlen; lia).
      rewrite Hrest in Htail. destruct Htail as [-> Hset].
      unfold set_dataset at 1. cbn [datasets].
      rewrite lookup_insert_eq. cbn [bind as_int]. rewrite Hset.
      reflexivity. }
  split; [|split; [exact Hnames|split; [|split]]].
  - destruct (Nat.eq_dec (ds_shape0 d_items) 0%nat) as [Hn|Hn].
    + rewrite (Hrun Hn).
      destruct (Features.data features) as [|x [|y rest]]; simpl; eauto.
    + rewrite Hnames by lia. simpl. eauto.
  - intros Hn Hdata. rewrite (Hrun Hn), Hdata. reflexivity.
  - intros Hn x Hdata. rewrite (Hrun Hn), Hdata. reflexivity.
  - intros Hn x y rest Hdata. rewrite (Hrun Hn), Hdata. reflexivity.
Qed.

(** An empty store and one new array of three frames: the write returns and
    the index is still empty. *)
Lemma Index_write_continue_empty_index_witness :
  Index.write Index.new (items_flag true) (features_of [3]%nat) (store [] [])
  = (store [] [], Ok tt).
Proof.
  refine (proj1 (proj2 (proj2 (proj2
    (Index_write_continue_empty_index Index.new (items_flag true)
       (features_of [3]%nat) (store [] []) (DStr []) _ _ _)))) _ (frames 3) _);
    reflexivity.
Defined.

(** C7, as stated, fails on an empty store: a continuing write of two new
    items resizes the index to one slot before the assignment of the two
    offsets to that slot raises; the stored index is no longer empty. *)
Lemma Index_write_continue_empty_counterexample :
  datasets (store [] []) !! "index" = Some (DInt []) /\
  Items.continue_last_item (items_flag true) (store [] []) = Ok true /\
  Index.write Index.new (items_flag true) (features_of [3; 2]%nat) (store [] [])
  = (set_dataset (store [] []) "index" (DInt [0]), Raise TypeError) /\
  ~ fails_and_keeps_index Index.new (items_flag true)
      (features_of [3; 2]%nat) (store [] []).
Proof.
  assert (Hrun :
    Index.write Index.new (items_flag true) (features_of [3; 2]%nat)
      (store [] [])
    = (set_dataset (store [] []) "index" (DInt [0]), Raise TypeError))
    by (vm_compute; reflexivity).
  repeat split; try reflexivity; try assumption.
  unfold fails_and_keeps_index. rewrite Hrun. simpl.
  intros [_ Heq]. vm_compute in Heq. discriminate.
Qed.

(** ** Sequences of writes *)

Lemma sum_list_app a b : sum_list (a ++ b) = sum_list a + sum_list b.
Proof. induction a as [|x a IH]; simpl; lia. Qed.

Lemma prefix_sums_app fc1 : forall last fc2,
  prefix_sums last (fc1 ++ fc2)
  = prefix_sums last fc1 ++ prefix_sums (last + sum_list fc1) fc2.
Proof.
  induction fc1 as [|x fc1 IH]; intros last fc2.
  - simpl. f_equal. lia.
  - change ((x :: fc1) ++ fc2) with (x :: (fc1 ++ fc2)).
    rewrite !prefix_sums_cons, IH.
    change (sum_list (x :: fc1)) with (x + sum_list fc1).
    replace (last + (x + sum_list fc1)) with (last + x + sum_list fc1) by lia.
    reflexivity.
Qed.

Lemma last_prefix_sums fc : forall last,
  fc <> [] -> last_offset (prefix_sums last fc) = last + sum_list fc.
Proof.
  unfold last_offset.
  induction fc as [|x fc IH]; intros last Hne; [congruence|].
  rewrite prefix_sums_cons. destruct fc as [|y fc].
  - simpl. lia.
  - specialize (IH (last + x) ltac:(congruence)).
    rewrite prefix_sums_cons in *. simpl in *. rewrite IH. lia.
Qed.

Lemma last_offset_app (a b : list Z) :
  b <> [] -> last_offset (a ++ b) = last_offset b.
Proof.
  unfold last_offset. intros Hb. induction a as [|y a IH]; [reflexivity|].
  simpl app. destruct (a ++ b) eqn:E.
  - destruct a, b; simpl in E; congruence.
  - exact IH.
Qed.

(** The offsets after the writes of all the frame counts [fc] so far. *)
Lemma last_offset_all fc :
  last_offset (prefix_sums (-1) fc) = -1 + sum_list fc.
Proof.
  destruct fc as [|x fc]; [reflexivity|]. now apply last_prefix_sums.
Qed.

Lemma prefix_sums_lookup fc last (i : nat) :
  (i < length fc)%nat ->
  prefix_sums last fc !! i = Some (last + sum_list (take (S i) fc)).
Proof.
  intros Hi. unfold prefix_sums.
  rewrite list_lookup_fmap, lookup_seq_lt by assumption. reflexivity.
Qed.

Lemma sum_take_S fc (i : nat) f :
  fc !! i = Some f -> sum_list (take (S i) fc) = sum_list (take i fc) + f.
Proof.
  intros Hf. rewrite (take_S_r _ _ _ Hf), sum_list_app. simpl. lia.
Qed.

Lemma sum_take_increasing fc (i j : nat) :
  Forall (fun x => 0 < x) fc -> (i < j <= length fc)%nat ->
  sum_list (take i fc) < sum_list (take j fc).
Proof.
  intros Hpos. induction j as [|j IH]; intros Hij; [lia|].
  destruct (lookup_lt_is_Some_2 fc j ltac:(lia)) as [f Hf].
  rewrite (sum_take_S _ _ _ Hf).
  assert (0 < f) by (eapply (proj1 (Forall_lookup _ _) Hpos); eassumption).
  destruct (Nat.eq_dec i j) as [->|]; [lia|].
  specialize (IH ltac:(lia)). lia.
Qed.

Lemma write_batch_run (self : Index.t) (items_name : string) (b : batch)
    (group : Group) (names : list ustring) (offsets : list Z) :
  items_name <> Index.name self ->
  datasets group !! items_name = Some (DStr names) ->
  datasets group !! Index.name self = Some (DInt offsets) ->
  length names = length offsets ->
  in_int64 (last_offset offsets) ->
  last_offset offsets + sum_list (batch_frame_counts b) <= int64_max ->
  exists group',
    write_batch self items_name b group = (group', Ok tt) /\
    datasets group' !! items_name = Some (DStr (names ++ new_items b)) /\
    datasets group' !! Index.name self =
      Some (DInt (offsets ++
                  prefix_sums (last_offset offsets) (batch_frame_counts b))).
Proof.
  intros Hne Hitems Hindex Hlen Hlast Hmax.
  eexists. unfold write_batch, act_bind.
  rewrite (write_run self _ _ group (DStr names) offsets false);
    try assumption; try reflexivity; try discriminate.
  unfold Items_write, group_getitem, set_dataset at 1. simpl datasets.
  rewrite (lookup_insert_ne (datasets group) (Index.name self) items_name)
    by congruence. rewrite Hitems. simpl.
  split; [reflexivity|]. unfold set_dataset. simpl datasets. split.
  - apply lookup_insert_eq.
  - rewrite lookup_insert_ne by assumption. apply lookup_insert_eq.
Qed.

Lemma writes_run (self : Index.t) (items_name : string) (bs : list batch) :
  forall (group : Group) (names : list ustring) (done : list Z),
  items_name <> Index.name self ->
  datasets group !! items_name = Some (DStr names) ->
  datasets group !! Index.name self = Some (DInt (prefix_sums (-1) done)) ->
  length names = length done ->
  Forall (fun x => 0 <= x) done ->
  Forall positive_batch bs ->
  -1 + sum_list (done ++ concat (map batch_frame_counts bs)) <= int64_max ->
  exists group',
    writes self items_name bs group = (group', Ok tt) /\
    datasets group' !! Index.name self =
      Some (DInt (prefix_sums (-1)
                    (done ++ concat (map batch_frame_counts bs)))).
Proof.
  induction bs as [|b bs IH];
    intros group names done Hne Hitems Hindex Hlen Hdone Hbs Hmax.
  - exists group. simpl. rewrite app_nil_r. auto.
  - inversion Hbs as [|? ? [Hb _] Hbs']; subst.
    simpl concat in *.
    assert (Hfc : Forall (fun x => 0 <= x) (batch_frame_counts b)).
    { unfold batch_frame_counts. apply List.Forall_forall.
      intros x Hx. apply in_map_iff in Hx as (y & <- & _). lia. }
    assert (Hrest : 0 <= sum_list (concat (map batch_frame_counts bs))).
    { apply sum_list_nonneg. apply List.Forall_forall. intros x Hx.
      apply in_concat in Hx as (l & Hl & Hx).
      apply in_map_iff in Hl as (b' & <- & _).
      unfold batch_frame_counts in Hx.
      apply in_map_iff in Hx as (y & <- & _). lia. }
    pose proof (sum_list_nonneg _ Hdone) as Hd.
    pose proof (sum_list_nonneg _ Hfc) as Hf.
    rewrite !sum_list_app in Hmax.
    destruct (write_batch_run self items_name b group names
                (prefix_sums (-1) done)) as (group1 & Hrun & Hitems1 & Hindex1);
      try assumption.
    { now rewrite prefix_sums_length. }
    { rewrite last_offset_all. unfold in_int64, int64_min. lia. }
    { rewrite last_offset_all. lia. }
    rewrite last_offset_all, <- prefix_sums_app in Hindex1.
    destruct (IH group1 (names ++ new_items b) (done ++ batch_frame_counts b))
      as (group2 & Hrun2 & Hindex2); try assumption.
    { rewrite !length_app, Hlen, Hb. unfold batch_frame_counts.
      now rewrite length_map. }
    { apply Forall_app; split; assumption. }
    { rewrite <- app_assoc, !sum_list_app. lia. }
    exists group2. split.
    + simpl. unfold act_bind. rewrite Hrun. exact Hrun2.
    + rewrite <- app_assoc in Hindex2. exact Hindex2.
Qed.

Lemma positive_frame_counts (bs : list batch) :
  Forall positive_batch bs ->
  Forall (fun x => 0 < x) (concat (map batch_frame_counts bs)).
Proof.
  intros Hbs. apply List.Forall_forall. intros x Hx.
  apply in_concat in Hx as (l & Hl & Hx).
  apply in_map_iff in Hl as (b & <- & Hb).
  unfold batch_frame_counts in Hx. apply in_map_iff in Hx as (y & <- & Hy).
  pose proof (proj1 (List.Forall_forall _ _) Hbs b Hb) as [_ Hpos].
  pose proof (proj1 (List.Forall_forall _ _) Hpos y Hy) as Hy0.
  simpl in Hy0. lia.
Qed.

(** The cumulative sums of positive frame counts, from [-1]. *)
Lemma cumulative_properties (fc : list Z) :
  Forall (fun x => 0 < x) fc ->
  strictly_increasing (prefix_sums (-1) fc) /\
  differences (prefix_sums (-1) fc) fc /\
  first_offset (prefix_sums (-1) fc) fc.
Proof.
  intros Hpos. split; [|split].
  - intros i j a b Hij Ha Hb.
    assert (Hj : (j < length fc)%nat).
    { apply lookup_lt_Some in Hb. now rewrite prefix_sums_length in Hb. }
    rewrite prefix_sums_lookup in Ha, Hb by lia.
    injection Ha as <-. injection Hb as <-.
    pose proof (sum_take_increasing fc (S i) (S j) Hpos ltac:(lia)). lia.
  - intros i c p f Hi Hc Hp Hf.
    assert (Hlt : (i < length fc)%nat) by (now apply lookup_lt_Some in Hf).
    rewrite prefix_sums_lookup in Hc, Hp by lia.
    injection Hc as <-. injection Hp as <-.
    replace (S (i - 1)) with i by lia. rewrite (sum_take_S _ _ _ Hf). lia.
  - intros c f Hc Hf.
    assert (Hlt : (0 < length fc)%nat) by (now apply lookup_lt_Some in Hf).
    rewrite prefix_sums_lookup in Hc by lia. injection Hc as <-.
    rewrite (sum_take_S _ _ _ Hf). simpl. lia.
Qed.

(** C4, as the code has it. After any sequence of writes of items with at
    least one frame each, none continuing an item, to a store created
    empty, the index holds one offset by item; the offsets are strictly
    increasing, [CumulativeIndex[0] == frame_count[0] - 1], and
    [CumulativeIndex[i] - CumulativeIndex[i-1] == frame_count[i]] for
    [i > 0] (the difference of two offsets is the frame count itself). *)
Theorem writes_cumulative_index (self : Index.t) (items_name : string)
    (bs : list batch) (group : Group) :
  items_name <> Index.name self ->
  datasets group !! items_name = Some (DStr []) ->
  datasets group !! Index.name self = Some (DInt []) ->
  Forall positive_batch bs ->
  sum_list (concat (map batch_frame_counts bs)) - 1 <= int64_max ->
  let fc := concat (map batch_frame_counts bs) in
  exists group' cumulative,
    writes self items_name bs group = (group', Ok tt) /\
    datasets group' !! Index.name self = Some (DInt cumulative) /\
    length cumulative = length fc /\
    strictly_increasing cumulative /\
    differences cumulative fc /\
    first_offset cumulative fc.
Proof.
  intros Hne Hitems Hindex Hbs Hmax fc.
  destruct (writes_run self items_name bs group [] [] Hne Hitems Hindex)
    as (group' & Hrun & Hindex'); try (constructor || assumption).
  { simpl app. lia. }
  simpl app in Hindex'. fold fc in Hindex'.
  exists group', (prefix_sums (-1) fc).
  split; [assumption|]. split; [assumption|].
  split; [apply prefix_sums_length|].
  apply cumulative_properties, positive_frame_counts, Hbs.
Qed.

Lemma writes_cumulative_index_witness :
  let fc := concat (map batch_frame_counts
                      [ {| new_items := [u "a"]; new_features := [frames 5] |};
                        {| new_items := [u "b"]; new_features := [frames 3] |} ]) in
  exists group' cumulative,
    writes Index.new "items"
      [ {| new_items := [u "a"]; new_features := [frames 5] |};
        {| new_items := [u "b"]; new_features := [frames 3] |} ]
      (store [] []) = (group', Ok tt) /\
    datasets group' !! "index" = Some (DInt cumulative) /\
    length cumulative = length fc /\
    strictly_increasing cumulative /\
    differences cumulative fc /\
    first_offset cumulative fc.
Proof.
  apply (writes_cumulative_index Index.new "items"
           [ {| new_items := [u "a"]; new_features := [frames 5] |};
             {| new_items := [u "b"]; new_features := [frames 3] |} ]
           (store [] [])).
  - discriminate.
  - reflexivity.
  - reflexivity.
  - repeat constructor.
  - vm_compute. discriminate.
Defined.

(** C4, as stated, fails: an item of 5 frames and then an item of 3 frames
    give the offsets 4 and 7, and [7 - 4 - 1] is 2, not the 3 frames of the
    second item. *)
Lemma writes_differences_counterexample :
  exists group',
    writes Index.new "items"
      [ {| new_items := [u "a"]; new_features := [frames 5] |};
        {| new_items := [u "b"]; new_features := [frames 3] |} ]
      (store [] []) = (group', Ok tt) /\
    datasets group' !! "index" = Some (DInt [4; 7]) /\
    ~ differences_minus_one [4; 7] [5; 3].
Proof.
  eexists. split; [vm_compute; reflexivity|]. split; [reflexivity|].
  intros H. specialize (H 1%nat 7 4 3 ltac:(lia) eq_refl eq_refl eq_refl).
  discriminate.
Qed.

(** ** The legacy item names *)

Lemma for_each_unichr codes :
  Forall code_point codes -> for_each unichr codes = Ok codes.
Proof.
  induction 1 as [|c codes Hc _ IH]; [reflexivity|].
  simpl. rewrite IH. unfold unichr, code_point in *.
  destruct (Z.leb_spec 0 c); [|lia]. destruct (Z.ltb_spec c 1114112); [|lia].
  reflexivity.
Qed.

Lemma join_characters (s : ustring) : py_join [] (map (fun c => [c]) s) = s.
Proof.
  induction s as [|c s IH]; [reflexivity|].
  simpl map. destruct s as [|c' s]; [reflexivity|].
  change (py_join [] ([c] :: map (fun c => [c]) (c' :: s)))
    with (c :: py_join [] (map (fun c => [c]) (c' :: s))).
  now rewrite IH.
Qed.

(** Induction on a text, two characters at a time. *)
Lemma ustring_ind2 (P : ustring -> Prop) :
  P [] -> (forall a, P [a]) ->
  (forall a b rest, P rest -> P (b :: rest) -> P (a :: b :: rest)) ->
  forall s, P s.
Proof.
  intros Hnil Hone Hstep s.
  assert (H : P s /\ forall a, P (a :: s)).
  { induction s as [|b s [IHs IHc]]; [split; auto|].
    split; [apply IHc|]. intros a. apply Hstep; auto. }
  apply H.
Qed.

Lemma startswith_two (a b x y : Z) (rest : ustring) :
  startswith (a :: b :: rest) [x; y] = (a =? x) && (b =? y).
Proof.
  simpl. replace (startswith rest []) with true by (now destruct rest).
  rewrite andb_true_r.
  destruct (Z.eqb_spec a x), (Z.eqb_spec b y);
    rewrite ?bool_decide_eq_true_2, ?bool_decide_eq_false_2 by congruence;
    reflexivity.
Qed.

Lemma replace_from_two (old1 old2 : Z) (new : ustring) (a b : Z) rest :
  replace_from [old1; old2] new 0 (a :: b :: rest) =
  if (a =? old1) && (b =? old2)
  then new ++ replace_from [old1; old2] new 0 rest
  else a :: replace_from [old1; old2] new 0 (b :: rest).
Proof.
  change (replace_from [old1; old2] new 0 (a :: b :: rest))
    with (if startswith (a :: b :: rest) [old1; old2]
          then new ++ replace_from [old1; old2] new 0 rest
          else a :: replace_from [old1; old2] new 0 (b :: rest)).
  now rewrite startswith_two.
Qed.

Lemma split_at_two (sep1 sep2 : Z) (a b : Z) rest :
  split_at [sep1; sep2] 0 (a :: b :: rest) =
  if (a =? sep1) && (b =? sep2)
  then [] :: split_at [sep1; sep2] 0 rest
  else cons_first a (split_at [sep1; sep2] 0 (b :: rest)).
Proof.
  change (split_at [sep1; sep2] 0 (a :: b :: rest))
    with (if startswith (a :: b :: rest) [sep1; sep2]
          then [] :: split_at [sep1; sep2] 0 rest
          else cons_first a (split_at [sep1; sep2] 0 (b :: rest))).
  now rewrite startswith_two.
Qed.

Lemma unescape_two (a b : Z) rest :
  unescape (a :: b :: rest) =
  if (a =? 47) && (b =? 45) then 47 :: unescape rest
  else a :: unescape (b :: rest).
Proof. reflexivity. Qed.

Lemma split_names_two (a b : Z) rest :
  split_names (a :: b :: rest) =
  if (a =? 47) && (b =? 92) then [] :: split_names rest
  else cons_first a (split_names (b :: rest)).
Proof. reflexivity. Qed.

Lemma replace_unescape (s : ustring) :
  py_replace s (u "/-") (u "/") = unescape s.
Proof.
  change (replace_from [47; 45] [47] 0 s = unescape s).
  induction s as [|a|a b rest IHrest IHtl] using ustring_ind2.
  - reflexivity.
  - simpl. rewrite andb_false_r. reflexivity.
  - rewrite replace_from_two, unescape_two, IHrest, IHtl. reflexivity.
Qed.

Lemma split_split_names (s : ustring) :
  py_split s (u "/\") = Ok (split_names s).
Proof.
  change (Ok (split_at [47; 92] 0 s) = Ok (split_names s)). f_equal.
  induction s as [|a|a b rest IHrest IHtl] using ustring_ind2.
  - reflexivity.
  - simpl. rewrite andb_false_r. reflexivity.
  - rewrite split_at_two, split_names_two, IHrest, IHtl. reflexivity.
Qed.

Lemma read_files_decode (codes : list Z) :
  Forall code_point codes ->
  H5features2.read_files codes = Ok (decode_names codes).
Proof.
  intros Hcodes. unfold H5features2.read_files, decode_names.
  rewrite (for_each_unichr _ Hcodes). cbn [bind].
  now rewrite join_characters, replace_unescape, split_split_names.
Qed.

(** *** What splitting is *)

Lemma split_names_nonempty (s : ustring) : split_names s <> [].
Proof.
  induction s as [|a|a b rest IHrest IHtl] using ustring_ind2;
    try discriminate.
  rewrite split_names_two. destruct ((a =? 47) && (b =? 92)); [discriminate|].
  destruct (split_names (b :: rest)); [congruence|discriminate].
Qed.

Lemma join_cons_first (sep : ustring) (a : Z) (pieces : list ustring) :
  pieces <> [] ->
  py_join sep (cons_first a pieces) = a :: py_join sep pieces.
Proof.
  destruct pieces as [|p [|q ps]]; [congruence| |]; reflexivity.
Qed.

Lemma join_cons (sep p : ustring) (pieces : list ustring) :
  pieces <> [] -> py_join sep (p :: pieces) = p ++ sep ++ py_join sep pieces.
Proof. destruct pieces; [congruence|reflexivity]. Qed.

(** The names, joined by the delimiter in their order, are the text. *)
Lemma join_split_names (s : ustring) :
  py_join (u "/\") (split_names s) = s.
Proof.
  induction s as [|a|a b rest IHrest IHtl] using ustring_ind2;
    try reflexivity.
  rewrite split_names_two.
  destruct (Z.eqb_spec a 47) as [->|Ha]; [destruct (Z.eqb_spec b 92) as [->|Hb]|];
    cbv beta iota delta [andb].
  - rewrite join_cons by apply split_names_nonempty. now rewrite IHrest.
  - rewrite join_cons_first by apply split_names_nonempty. now rewrite IHtl.
  - rewrite join_cons_first by apply split_names_nonempty. now rewrite IHtl.
Qed.

(** The first name is the beginning of the text. *)
Lemma first_name_prefix (s : ustring) :
  exists rest, s = hd [] (split_names s) ++ rest.
Proof.
  induction s as [|a|a b rest IHrest IHtl] using ustring_ind2.
  - now exists [].
  - now exists [].
  - rewrite split_names_two. destruct ((a =? 47) && (b =? 92)).
    + now exists (a :: b :: rest).
    + destruct IHtl as [tl Htl].
      destruct (split_names (b :: rest)) as [|p ps] eqn:E;
        [now apply split_names_nonempty in E|].
      exists tl. simpl in *. now rewrite <- Htl.
Qed.

(** No name holds the delimiter. *)
Lemma split_names_no_delimiter (s : ustring) :
  Forall (fun name => ~ occurs_in (u "/\") name) (split_names s).
Proof.
  change (u "/\") with [47; 92].
  induction s as [|a|a b rest IHrest IHtl] using ustring_ind2.
  - repeat constructor. intros (pre & post & H). now destruct pre.
  - repeat constructor. intros (pre & post & H).
    destruct pre as [|? [|? ?]]; discriminate.
  - rewrite split_names_two.
    destruct ((a =? 47) && (b =? 92)) eqn:Hdelim.
    + constructor; [|assumption]. intros (pre & post & H). now destruct pre.
    + destruct (first_name_prefix (b :: rest)) as [tl Htl].
      destruct (split_names (b :: rest)) as [|p ps] eqn:E;
        [now apply split_names_nonempty in E|].
      inversion IHtl as [|? ? Hp Hps]; subst. simpl in Htl.
      constructor; [|assumption].
      intros (pre & post & H). destruct pre as [|x pre].
      * simpl in H. injection H as -> ->. simpl in Htl.
        injection Htl as -> _. discriminate.
      * simpl in H. injection H as _ ->. apply Hp. now exists pre, post.
Qed.

(** C5. The item names of a legacy store: the integers, which are code
    points, are taken as the characters of one text, every [/-] of the text
    is replaced by [/], and the result is cut at every [/\]. The names come
    in the order of the text: joined by the delimiter they give it back,
    and none holds the delimiter. [LegacyIndex.read] and [IndexV0_1.read]
    return them under the key [files]. *)
Theorem legacy_names_decoding (codes : list Z) :
  Forall code_point codes ->
  H5features2.read_files codes = Ok (decode_names codes) /\
  py_join (u "/\") (decode_names codes) = unescape codes /\
  Forall (fun name => ~ occurs_in (u "/\") name) (decode_names codes) /\
  forall group index,
    datasets group !! "files" = Some (DInt codes) ->
    (H5features2.LegacyIndex_read group = Ok index \/
     H5features.IndexV0_1_read group = Ok index) ->
    index !! "files" = Some (VList (decode_names codes)).
Proof.
  intros Hcodes. pose proof (read_files_decode codes Hcodes) as Hread.
  split; [assumption|]. split; [apply join_split_names|].
  split; [apply split_names_no_delimiter|].
  intros group index Hfiles Hrun.
  assert (H : H5features2.LegacyIndex_read group = Ok index)
    by (destruct Hrun; assumption).
  clear Hrun. unfold H5features2.LegacyIndex_read, group_getitem in H.
  rewrite Hfiles in H. cbn [bind ints_of] in H. rewrite Hread in H.
  cbn [bind] in H.
  destruct (datasets group !! "index") as [d_index|]; [|discriminate].
  cbn [bind] in H. destruct (np_int64 d_index) as [index64|]; [|discriminate].
  cbn [bind] in H.
  destruct (datasets group !! "times") as [d_times|]; [|discriminate].
  cbn [bind] in H.
  destruct (attrs_getitem group "format") as [format|]; [|discriminate].
  cbn [bind] in H. destruct (is_sparse format).
  - destruct (attrs_getitem group "dim") as [dim|]; [|discriminate].
    cbn [bind] in H.
    destruct (datasets group !! "lines") as [d_lines|]; [|discriminate].
    cbn [bind] in H. injection H as <-.
    rewrite !lookup_insert_ne by discriminate. apply lookup_insert_eq.
  - injection H as <-. apply lookup_insert_eq.
Qed.

Lemma legacy_names_decoding_witness :
  H5features2.read_files (u "a/-b/\c") = Ok (decode_names (u "a/-b/\c")) /\
  py_join (u "/\") (decode_names (u "a/-b/\c")) = unescape (u "a/-b/\c") /\
  Forall (fun name => ~ occurs_in (u "/\") name) (decode_names (u "a/-b/\c")) /\
  forall group index,
    datasets group !! "files" = Some (DInt (u "a/-b/\c")) ->
    (H5features2.LegacyIndex_read group = Ok index \/
     H5features.IndexV0_1_read group = Ok index) ->
    index !! "files" = Some (VList (decode_names (u "a/-b/\c"))).
Proof.
  apply (legacy_names_decoding (u "a/-b/\c")).
  repeat constructor; vm_compute; congruence.
Defined.

Example decode_names_example :
  decode_names (u "a/-b/\c") = [u "a/b"; u "c"].
Proof. reflexivity. Qed.

(** ** [Reader.read]: the positions of the items *)

Lemma list_index_first_rank (names : list ustring) (name : ustring) (p : nat) :
  list_index name names = Ok p <-> first_rank names name p.
Proof.
  revert p. induction names as [|y names IH]; intros p.
  - split; [discriminate|]. intros [H _]. discriminate.
  - simpl. destruct (decide (y = name)) as [->|Hne].
    + split.
      * intros [= <-]. split; [reflexivity|]. intros q Hq. lia.
      * intros [Hp Hfirst]. destruct p as [|p]; [reflexivity|].
        exfalso. apply (Hfirst 0%nat); [lia|reflexivity].
    + destruct (list_index name names) as [i|e] eqn:E; simpl.
      * split.
        -- intros [= <-]. destruct (proj1 (IH i) eq_refl) as [Hi Hfirst].
           split; [exact Hi|]. intros [|q] Hq; simpl; [congruence|].
           apply Hfirst. lia.
        -- intros [Hp Hfirst]. destruct p as [|p]; [simpl in Hp; congruence|].
           f_equal. f_equal. symmetry.
           assert (Hrank : first_rank names name p).
           { split; [exact Hp|]. intros q Hq. apply (Hfirst (S q)). lia. }
           apply IH in Hrank. congruence.
      * split; [discriminate|]. intros [Hp Hfirst].
        destruct p as [|p]; [simpl in Hp; congruence|].
        assert (Hrank : first_rank names name p).
        { split; [exact Hp|]. intros q Hq. apply (Hfirst (S q)). lia. }
        apply IH in Hrank. congruence.
Qed.

Lemma list_index_absent (names : list ustring) (name : ustring) :
  list_index name names = Raise ValueError <-> name ∉ names.
Proof.
  induction names as [|y names IH].
  - split; [intros _; apply not_elem_of_nil|reflexivity].
  - simpl. rewrite not_elem_of_cons. destruct (decide (y = name)) as [->|Hne].
    + split; [discriminate|]. intros [H _]. congruence.
    + destruct (list_index name names) as [i|e] eqn:E; simpl.
      * split; [discriminate|]. intros [_ H]. apply IH in H. discriminate.
      * split.
        -- intros [= ->]. split; [congruence|]. now apply IH.
        -- intros [_ H]. apply IH in H. congruence.
Qed.

Lemma list_index_raises (names : list ustring) (name : ustring) e :
  list_index name names = Raise e -> e = ValueError.
Proof.
  induction names as [|y names IH]; simpl; [congruence|].
  destruct (decide (y = name)); [discriminate|].
  destruct (list_index name names); simpl; [discriminate|].
  intros [= <-]. now apply IH.
Qed.

Lemma get_item_raises (names : list ustring) (name : ustring) e :
  Reader._get_item names name = Raise e -> e = IOError no_entry_for_item.
Proof.
  unfold Reader._get_item.
  destruct (list_index name names) as [|e'] eqn:E; simpl; [discriminate|].
  apply list_index_raises in E as ->. congruence.
Qed.

Lemma get_item_first_rank (names : list ustring) (name : ustring) (p : nat) :
  Reader._get_item names name = Ok p <-> first_rank names name p.
Proof.
  rewrite <- list_index_first_rank. unfold Reader._get_item.
  destruct (list_index name names) as [i|[]]; simpl; split; congruence.
Qed.

Lemma get_item_absent (names : list ustring) (name : ustring) :
  name ∉ names ->
  Reader._get_item names name = Raise (IOError no_entry_for_item).
Proof.
  intros H. apply list_index_absent in H. unfold Reader._get_item.
  now rewrite H.
Qed.

Lemma py_getitem_last {A} (a : list A) (d : A) :
  a <> [] -> py_getitem a (-1) = Ok (List.last a d).
Proof.
  intros Hne. unfold py_getitem.
  destruct (Z.ltb_spec (-1) 0) as [_|?]; [|lia].
  assert (Hlen : (0 < length a)%nat) by (destruct a; [congruence|simpl; lia]).
  destruct (Z.ltb_spec (-1 + Z.of_nat (length a)) 0) as [?|_]; [lia|].
  destruct (Z.leb_spec (Z.of_nat (length a)) (-1 + Z.of_nat (length a)))
    as [?|_]; [lia|]. simpl.
  replace (Z.to_nat (-1 + Z.of_nat (length a))) with (pred (length a)) by lia.
  rewrite (lookup_last a d) by assumption. reflexivity.
Qed.

(** C6. The items of a query. An omitted [to_item] is [from_item] when that
    is given, and the last item of the index otherwise; an omitted
    [from_item] is the first item. Both names are resolved to the first
    rank at which they stand, [p1] and [p2]; a name that is not in the index
    is an [IOError], and so is [p2 < p1], with which the whole read fails. *)
Theorem read_items_resolution (self : Reader.t) (names : list ustring) :
  Reader.index self !! "items" = Some (VList names) ->
  (forall from_item,
     Reader.read_items self (Some from_item) None
     = Reader.read_items self (Some from_item) (Some from_item)) /\
  (forall first rest, names = first :: rest ->
     Reader.read_items self None None
     = Reader.read_items self (Some first) (Some (List.last names first))) /\
  (forall first rest to_item, names = first :: rest ->
     Reader.read_items self None (Some to_item)
     = Reader.read_items self (Some first) (Some to_item)) /\
  (forall from_item to_item p1 p2,
     first_rank names from_item p1 -> first_rank names to_item p2 ->
     ((p1 <= p2)%nat ->
      Reader.read_items self (Some from_item) (Some to_item)
      = Ok (names, p1, p2)) /\
     ((p2 < p1)%nat ->
      Reader.read_items self (Some from_item) (Some to_item)
      = Raise (IOError from_item_is_located_after_to_item))) /\
  (forall from_item to_item, from_item ∉ names \/ to_item ∉ names ->
     Reader.read_items self (Some from_item) (Some to_item)
     = Raise (IOError no_entry_for_item)) /\
  (forall from_item to_item from_time to_time e,
     Reader.read_items self from_item to_item = Raise e ->
     Reader.read self from_item to_item from_time to_time = Raise e).
Proof.
  intros Hitems.
  assert (Hget : dict_getitem (Reader.index self) "items" = Ok (VList names))
    by (unfold dict_getitem; now rewrite Hitems).
  repeat split.
  - intros first rest Hnames. unfold Reader.read_items.
    rewrite Hget. cbn [bind as_names].
    rewrite (py_getitem_last names first) by (rewrite Hnames; discriminate).
    cbn [bind]. replace (py_getitem names 0) with (Ok first)
      by (now rewrite Hnames).
    reflexivity.
  - intros first rest to_item Hnames. unfold Reader.read_items.
    rewrite Hget. cbn [bind as_names].
    replace (py_getitem names 0) with (Ok first) by (now rewrite Hnames).
    reflexivity.
  - intros Hle. unfold Reader.read_items. rewrite Hget. cbn [bind as_names].
    apply get_item_first_rank in H, H0. rewrite H, H0. cbn [bind].
    apply Nat.leb_le in Hle. now rewrite Hle.
  - intros Hlt. unfold Reader.read_items. rewrite Hget. cbn [bind as_names].
    apply get_item_first_rank in H, H0. rewrite H, H0. cbn [bind].
    apply Nat.leb_gt in Hlt. now rewrite Hlt.
  - intros from_item to_item Habsent. unfold Reader.read_items.
    rewrite Hget. cbn [bind as_names].
    destruct (Reader._get_item names from_item) as [p1|e] eqn:E1.
    + destruct Habsent as [Ha|Ha].
      * apply get_item_absent in Ha. congruence.
      * apply get_item_absent in Ha. rewrite Ha. reflexivity.
    + cbn [bind]. now apply get_item_raises in E1 as ->.
  - intros from_item to_item from_time to_time e Hraise.
    unfold Reader.read. now rewrite Hraise.
Qed.

Example abc_init : Reader.init abc_files "f.h5" "features" None = Ok abc.
Proof. vm_compute. reflexivity. Qed.

Lemma read_items_resolution_witness :
  Reader.read_items abc (Some (u "c")) (Some (u "a"))
  = Raise (IOError from_item_is_located_after_to_item) /\
  Reader.read abc (Some (u "c")) (Some (u "a")) None None
  = Raise (IOError from_item_is_located_after_to_item) /\
  Reader.read_items abc None None = Ok ([u "a"; u "b"; u "c"], 0, 2)%nat.
Proof.
  destruct (read_items_resolution abc [u "a"; u "b"; u "c"] eq_refl)
    as (_ & Hnone & _ & Hranks & _ & Hread).
  assert (Ha : first_rank [u "a"; u "b"; u "c"] (u "a") 0).
  { split; [reflexivity|]. intros q Hq. lia. }
  assert (Hc : first_rank [u "a"; u "b"; u "c"] (u "c") 2).
  { split; [reflexivity|]. intros [|[|q]] Hq; [discriminate|discriminate|lia]. }
  pose proof (proj2 (Hranks _ _ _ _ Hc Ha) ltac:(lia)) as Hinv.
  split; [exact Hinv|]. split; [now apply Hread|].
  rewrite (Hnone (u "a") [u "b"; u "c"] eq_refl).
  exact (proj1 (Hranks _ _ _ _ Ha Hc) ltac:(lia)).
Defined.

(** ** [Reader.read]: the bounds in time *)

(** Case analysis on the first computation of a sequence that is known to
    return. *)
Ltac step_ok H :=
  match type of H with
  | bind ?r _ = Ok _ =>
      let E := fresh "E" in
      destruct r eqn:E; cbn [bind] in H; [|discriminate H]
  end.

Lemma read_bounds_ok (self : Reader.t) (item1 item2 : nat)
    (from_time to_time : option Q) bounds :
  Reader.read_bounds self item1 item2 from_time to_time = Ok bounds ->
  from_time = None /\ to_time = None.
Proof.
  unfold Reader.read_bounds. intros H.
  do 6 step_ok H.
  destruct from_time as [from_time|]; [discriminate H|].
  cbn [bind] in H.
  destruct to_time as [to_time|]; [discriminate H|].
  split; reflexivity.
Qed.

(** C2, on the code. A read with a bound in time never returns: the times
    are looked up in the array of the offsets ([index_group['times']]),
    which raises before the scan of the times. With the times 1, 2, 3, 4
    of one item, [from_time=2.0] and [to_time=3.5] raise, where the claim
    has the frames of the times 2 and 3 as bounds. *)
Theorem read_time_bounds_raise :
  (forall self from_item to_item from_time to_time r,
     Reader.read self from_item to_item from_time to_time = Ok r ->
     from_time = None /\ to_time = None) /\
  Reader.init (fun _ => Some (<["features" := one_item_group]> ∅))
    "f.h5" "features" None = Ok one_item /\
  Reader.read one_item (Some (u "a")) None (Some 2%Q) None = Raise IndexError /\
  Reader.read one_item (Some (u "a")) None None (Some (7 # 2)%Q)
  = Raise IndexError /\
  Reader.read one_item (Some (u "a")) None (Some 10%Q) None = Raise IndexError.
Proof.
  split; [|repeat split; vm_compute; reflexivity].
  intros self from_item to_item from_time to_time r H.
  unfold Reader.read in H. step_ok H. destruct a as [[items_group item1] item2].
  step_ok H. now apply read_bounds_ok in E0.
Qed.

(** ** Slices *)

Lemma py_slice_in_range {A} (l : list A) (a b : Z) :
  0 <= a <= b -> b <= Z.of_nat (length l) ->
  py_slice l (Some a) (Some b) = take (Z.to_nat b - Z.to_nat a) (drop (Z.to_nat a) l).
Proof.
  intros Hab Hb. unfold py_slice, slice_bound.
  destruct (Z.ltb_spec a 0); [lia|]. destruct (Z.ltb_spec b 0); [lia|].
  rewrite !Z.min_l by lia. f_equal. lia.
Qed.

Lemma py_slice_length {A} (l : list A) (a b : Z) :
  0 <= a <= b -> b <= Z.of_nat (length l) ->
  Z.of_nat (length (py_slice l (Some a) (Some b))) = b - a.
Proof.
  intros Hab Hb. rewrite py_slice_in_range by assumption.
  rewrite length_take, length_drop. lia.
Qed.

(** A slice of a slice is a slice. *)
Lemma py_slice_slice {A} (l : list A) (s e a b : Z) :
  0 <= s <= e -> e <= Z.of_nat (length l) -> 0 <= a <= b -> b <= e - s ->
  py_slice (py_slice l (Some s) (Some e)) (Some a) (Some b)
  = py_slice l (Some (s + a)) (Some (s + b)).
Proof.
  intros Hse He Hab Hb.
  pose proof (py_slice_length l s e Hse He) as Hlen.
  rewrite (py_slice_in_range (py_slice l (Some s) (Some e))) by lia.
  rewrite (py_slice_in_range l s e), (py_slice_in_range l (s + a) (s + b))
    by lia.
  rewrite skipn_firstn_comm, take_take, drop_drop. f_equal; [lia|].
  f_equal. lia.
Qed.


(** A slice of positions is the list of the elements at these positions. *)
Lemma take_drop_nth_seq (l : list Z) (p n : nat) :
  (p + n <= length l)%nat ->
  take n (drop p l) = map (fun k => nth k l 0) (seq p n).
Proof.
  revert p. induction n as [|n IH]; intros p Hp; [now rewrite take_0|].
  destruct (lookup_lt_is_Some_2 l p ltac:(lia)) as [x Hx].
  rewrite (drop_S _ _ _ Hx). simpl. f_equal.
  - symmetry. now apply nth_lookup_Some with (d := 0) in Hx.
  - apply IH. lia.
Qed.

(** ** The ranges of the items of a well-formed index *)

Section WfIndex.
Variables (offsets : list Z) (nframes : nat).
Hypothesis Hwf : wf_index offsets nframes.

Lemma item_last_lookup (p : nat) :
  (p < length offsets)%nat -> offsets !! p = Some (item_last offsets p).
Proof.
  intros Hp. destruct (lookup_lt_is_Some_2 offsets p Hp) as [x Hx].
  rewrite Hx. f_equal. symmetry. now apply nth_lookup_Some.
Qed.

Lemma item_last_range (p : nat) :
  (p < length offsets)%nat -> -1 <= item_last offsets p < Z.of_nat nframes.
Proof.
  intros Hp. destruct Hwf as [_ Hrange].
  exact (proj1 (Forall_lookup _ _) Hrange p _ (item_last_lookup p Hp)).
Qed.

Lemma item_last_mono (p q : nat) :
  (p <= q < length offsets)%nat -> item_last offsets p <= item_last offsets q.
Proof.
  intros Hpq. destruct Hwf as [Hmono _].
  apply (Hmono p q); [lia|apply item_last_lookup; lia|apply item_last_lookup; lia].
Qed.

Lemma item_first_succ (p : nat) :
  item_first offsets (S p) = item_last offsets p + 1.
Proof. reflexivity. Qed.

Lemma item_first_nonneg (p : nat) :
  (p < length offsets)%nat -> 0 <= item_first offsets p.
Proof.
  intros Hp. destruct p as [|p]; [simpl; lia|].
  rewrite item_first_succ. pose proof (item_last_range p ltac:(lia)). lia.
Qed.

Lemma item_first_mono (p q : nat) :
  (p <= q < length offsets)%nat -> item_first offsets p <= item_first offsets q.
Proof.
  intros Hpq. destruct p as [|p].
  - apply item_first_nonneg. lia.
  - destruct q as [|q]; [lia|]. rewrite !item_first_succ.
    pose proof (item_last_mono p q ltac:(lia)). lia.
Qed.

Lemma item_first_le_last (p : nat) :
  (p < length offsets)%nat -> item_first offsets p <= item_last offsets p + 1.
Proof.
  intros Hp. destruct p as [|p].
  - pose proof (item_last_range 0 Hp). simpl. lia.
  - rewrite item_first_succ.
    pose proof (item_last_mono p (S p) ltac:(lia)). lia.
Qed.

(** Cutting the frames from [s] to the end of the item [p2] at the ends of
    the items [p], ..., [p2 - 1], counted from [s], gives the frames of
    each of the items [p], ..., [p2]. *)
Lemma split_from_items {A} (frames : list A) (p2 : nat) (s : Z) :
  length frames = nframes -> (p2 < length offsets)%nat -> 0 <= s ->
  forall (n p : nat), (p + n)%nat = p2 -> s <= item_first offsets p ->
  split_from
    (py_slice frames (Some s) (Some (item_last offsets p2 + 1)))
    (item_first offsets p - s)
    (map (fun k => item_last offsets k - s + 1) (seq p n))
  = map (item_slice offsets frames) (seq p (n + 1)).
Proof.
  intros Hframes Hp2 Hs.
  pose proof (item_last_range p2 Hp2) as He.
  assert (Hslice : forall a b, s <= a <= b -> b <= item_last offsets p2 + 1 ->
            py_slice (py_slice frames (Some s) (Some (item_last offsets p2 + 1)))
                     (Some (a - s)) (Some (b - s))
            = py_slice frames (Some a) (Some b)).
  { intros a b Hab Hb. rewrite py_slice_slice by lia.
    f_equal; f_equal; lia. }
  induction n as [|n IH]; intros p Hp Hfirst.
  - assert (p = p2) by lia. subst p. simpl.
    pose proof (item_first_le_last p2 Hp2).
    replace (Z.of_nat (length
               (py_slice frames (Some s) (Some (item_last offsets p2 + 1)))))
      with (item_last offsets p2 + 1 - s)
      by (rewrite py_slice_length; lia).
    rewrite Hslice by lia. reflexivity.
  - pose proof (item_first_le_last p ltac:(lia)).
    pose proof (item_last_mono p p2 ltac:(lia)).
    simpl seq. simpl map. simpl split_from. f_equal.
    + replace (item_last offsets p - s + 1)
        with (item_last offsets p + 1 - s) by lia.
      rewrite Hslice by lia. reflexivity.
    + replace (item_last offsets p - s + 1)
        with (item_first offsets (S p) - s) by (rewrite item_first_succ; lia).
      apply IH; [lia|]. rewrite item_first_succ. lia.
Qed.

End WfIndex.

(** ** [Reader.read]: the split by item *)

Lemma py_getitem_nat {A} (l : list A) (i : nat) (x : A) :
  l !! i = Some x -> py_getitem l (Z.of_nat i) = Ok x.
Proof.
  intros Hx. pose proof (lookup_lt_Some _ _ _ Hx) as Hi. unfold py_getitem.
  assert (E : (Z.of_nat i <? 0) = false) by (apply Z.ltb_ge; lia).
  cbv zeta. rewrite E. cbv iota. rewrite E.
  rewrite (proj2 (Z.leb_gt (Z.of_nat (length l)) (Z.of_nat i))) by lia.
  cbn [orb]. now rewrite Nat2Z.id, Hx.
Qed.

Lemma read_items_ordered (self : Reader.t) from_item to_item names p1 p2 :
  Reader.read_items self from_item to_item = Ok (names, p1, p2) ->
  (p1 <= p2)%nat.
Proof.
  unfold Reader.read_items. intros H. do 6 step_ok H.
  destruct (Nat.leb_spec a3 a4); simpl in H; [|discriminate].
  injection H as _ <- <-. assumption.
Qed.

Section ReadSplit.
Variables (offsets : list Z) (nframes : nat).
Hypothesis Hwf : wf_index offsets nframes.
Hypothesis Hmax : Z.of_nat nframes <= int64_max.

Lemma item_start_first (p : nat) :
  (p < length offsets)%nat ->
  Reader.item_start offsets p = Ok (item_first offsets p).
Proof.
  intros Hp. unfold Reader.item_start. destruct p as [|p]; [reflexivity|].
  replace (S p =? 0)%nat with false by reflexivity.
  replace (Z.of_nat (S p) - 1) with (Z.of_nat p) by lia.
  rewrite (py_getitem_nat offsets p (item_last offsets p))
    by (apply item_last_lookup; lia).
  cbn [bind]. pose proof (item_last_range offsets nframes Hwf p ltac:(lia)).
  rewrite add64_exact
    by (unfold in_int64, int64_min, int64_max in *; lia).
  reflexivity.
Qed.

Lemma item_end_last (p : nat) :
  (p < length offsets)%nat ->
  py_getitem offsets (Z.of_nat p) = Ok (item_last offsets p).
Proof.
  intros Hp. apply py_getitem_nat. now apply item_last_lookup.
Qed.

Lemma item_end_succ (p : nat) :
  (p < length offsets)%nat ->
  add64 (item_last offsets p) 1 = item_last offsets p + 1.
Proof.
  intros Hp. pose proof (item_last_range offsets nframes Hwf p Hp).
  apply add64_exact. unfold in_int64, int64_min, int64_max in *. lia.
Qed.

(** The interior boundaries are the ends of the items but the last,
    counted from the start of the first. *)
Lemma file_ends_rebased (p1 p2 : nat) :
  (p1 <= p2 < length offsets)%nat ->
  Reader.file_ends offsets p1 p2 (item_first offsets p1)
  = map (fun k => item_last offsets k - item_first offsets p1)
        (seq p1 (p2 - p1)).
Proof.
  intros Hp. unfold Reader.file_ends.
  rewrite py_slice_in_range by lia. rewrite !Nat2Z.id.
  rewrite take_drop_nth_seq by lia. rewrite map_map.
  apply map_ext_in. intros k Hk. apply in_seq in Hk.
  pose proof (item_last_range offsets nframes Hwf k ltac:(lia)).
  pose proof (item_first_nonneg offsets nframes Hwf p1 ltac:(lia)).
  pose proof (item_first_le_last offsets nframes Hwf p1 ltac:(lia)).
  pose proof (item_last_range offsets nframes Hwf p1 ltac:(lia)).
  apply sub64_exact. fold (item_last offsets k).
  unfold in_int64, int64_min, int64_max in *. lia.
Qed.

Lemma split_points (p1 p2 : nat) :
  (p1 <= p2 < length offsets)%nat ->
  map (fun e => add64 e 1)
      (Reader.file_ends offsets p1 p2 (item_first offsets p1))
  = map (fun k => item_last offsets k - item_first offsets p1 + 1)
        (seq p1 (p2 - p1)).
Proof.
  intros Hp. rewrite file_ends_rebased, map_map by assumption.
  apply map_ext_in. intros k Hk. apply in_seq in Hk.
  pose proof (item_last_range offsets nframes Hwf k ltac:(lia)).
  pose proof (item_first_nonneg offsets nframes Hwf p1 ltac:(lia)).
  pose proof (item_first_le_last offsets nframes Hwf p1 ltac:(lia)).
  pose proof (item_last_range offsets nframes Hwf p1 ltac:(lia)).
  apply add64_exact. unfold in_int64, int64_min, int64_max in *. lia.
Qed.

(** The slice of the frames of the items [p1] to [p2], split at the
    interior boundaries, is the list of the frames of each item. *)
Lemma np_split_items {A} (frames : list A) (p1 p2 : nat) :
  length frames = nframes -> (p1 <= p2 < length offsets)%nat ->
  np_split
    (py_slice frames (Some (item_first offsets p1))
              (Some (item_last offsets p2 + 1)))
    (map (fun e => add64 e 1)
         (Reader.file_ends offsets p1 p2 (item_first offsets p1)))
  = map (item_slice offsets frames) (seq p1 (p2 - p1 + 1)).
Proof.
  intros Hframes Hp. rewrite split_points by assumption. unfold np_split.
  replace 0 with (item_first offsets p1 - item_first offsets p1) at 1 by lia.
  apply (split_from_items offsets nframes Hwf); try lia; try assumption.
  eapply item_first_nonneg; [eassumption|lia].
Qed.

End ReadSplit.

(** C3. A read of the items at the positions [p1] to [p2] of a well-formed
    dense store. For [p2 > p1] the interior boundaries are the ends of the
    items [p1], ..., [p2 - 1], each less the start [s1] of the first item;
    the slice of the frames and the slice of the times are split behind
    them, which gives one array by item, the frames (and the times) of that
    item. For [p2 = p1] the slice is returned undivided. Three items of 4,
    3 and 2 frames: the boundaries are 3 and 6 and the slice has 9 frames. *)
Theorem read_splits_by_item (self : Reader.t)
    (from_item to_item : option ustring) (names : list ustring) (p1 p2 : nat)
    (offsets : list Z) (times : list Q) (features : ndarray2) :
  Reader.read_items self from_item to_item = Ok (names, p1, p2) ->
  Reader.index self !! "index" = Some (VArray (DInt offsets)) ->
  Reader.index self !! "format" = Some (VAttr (AStr "dense")) ->
  Reader.legacy self = false ->
  datasets (Reader.group self) !! "features" = Some (DMat features) ->
  datasets (Reader.group self) !! "times" = Some (DFloat times) ->
  shape0 features = length times ->
  wf_index offsets (length times) ->
  (p2 < length offsets)%nat ->
  Z.of_nat (length times) <= int64_max ->
  let s1 := item_first offsets p1 in
  let e2 := item_last offsets p2 in
  Reader.read self from_item to_item None None
  = Ok (py_slice names (Some (Z.of_nat p1)) (Some (Z.of_nat p2 + 1)),
        map (item_slice offsets times) (seq p1 (p2 - p1 + 1)),
        map (fun p => {| ncols := ncols features;
                         rows := item_slice offsets (rows features) p |})
            (seq p1 (p2 - p1 + 1))) /\
  ((p1 < p2)%nat ->
     Reader.file_ends offsets p1 p2 s1
     = map (fun k => item_last offsets k - s1) (seq p1 (p2 - p1)) /\
     forall sliced_features sliced_times,
       Reader.read_split offsets p1 p2 s1 sliced_features sliced_times
       = (np_split sliced_times
            (map (fun e => add64 e 1) (Reader.file_ends offsets p1 p2 s1)),
          np_split_rows sliced_features
            (map (fun e => add64 e 1) (Reader.file_ends offsets p1 p2 s1)))) /\
  (p1 = p2 ->
     Reader.read self from_item to_item None None
     = Ok (py_slice names (Some (Z.of_nat p1)) (Some (Z.of_nat p2 + 1)),
           [py_slice times (Some s1) (Some (e2 + 1))],
           [slice_rows features (Some s1) (Some (e2 + 1))])) /\
  (Reader.file_ends [3; 6; 8] 0 2 0 = [3; 6] /\
   exists items item_times item_features,
     Reader.read abc None None None None
     = Ok (items, item_times, item_features) /\
     map (@length Q) item_times = [4; 3; 2]%nat /\
     map shape0 item_features = [4; 3; 2]%nat /\
     length (concat item_times) = 9%nat).
Proof.
  intros Hitems Hindex Hformat Hlegacy Hfeatures Htimes Hshape Hwf Hp2 Hmax
         s1 e2.
  pose proof (read_items_ordered _ _ _ _ _ _ Hitems) as Hp1.
  assert (Hs1 : Reader.item_start offsets p1 = Ok s1)
    by (apply (item_start_first offsets (length times)); [assumption..|lia]).
  assert (Hs2 : Reader.item_start offsets p2 = Ok (item_first offsets p2))
    by (apply (item_start_first offsets (length times)); assumption).
  assert (He1 : py_getitem offsets (Z.of_nat p1) = Ok (item_last offsets p1))
    by (apply item_end_last; lia).
  assert (He2 : py_getitem offsets (Z.of_nat p2) = Ok e2)
    by (apply item_end_last; lia).
  assert (Hbounds : Reader.read_bounds self p1 p2 None None
                    = Ok (offsets, s1, s1, e2)).
  { unfold Reader.read_bounds, dict_getitem. rewrite Hindex.
    cbn [bind as_int_array]. rewrite Hs1, Hs2, He1, He2. reflexivity. }
  assert (He2' : add64 e2 1 = e2 + 1)
    by (apply (item_end_succ offsets (length times)); assumption).
  assert (Hdata : Reader.read_data self s1 e2
                  = Ok (slice_rows features (Some s1) (Some (e2 + 1)),
                        py_slice times (Some s1) (Some (e2 + 1)))).
  { unfold Reader.read_data, group_getitem, dict_getitem.
    rewrite Hfeatures, Hformat, Htimes, Hlegacy, He2'. reflexivity. }
  assert (Hsplit :
    Reader.read_split offsets p1 p2 s1
      (slice_rows features (Some s1) (Some (e2 + 1)))
      (py_slice times (Some s1) (Some (e2 + 1)))
    = (map (item_slice offsets times) (seq p1 (p2 - p1 + 1)),
       map (fun p => {| ncols := ncols features;
                        rows := item_slice offsets (rows features) p |})
           (seq p1 (p2 - p1 + 1)))).
  { unfold Reader.read_split. destruct (Nat.ltb_spec p1 p2) as [Hlt|Hge].
    - unfold np_split_rows, slice_rows. cbn [rows ncols]. subst s1 e2.
      rewrite (np_split_items offsets (length times) Hwf Hmax times)
        by (try reflexivity; lia).
      rewrite (np_split_items offsets (length times) Hwf Hmax (rows features))
        by (try assumption; lia).
      now rewrite map_map.
    - assert (p1 = p2) by lia. subst p2.
      replace (p1 - p1 + 1)%nat with 1%nat by lia. reflexivity. }
  assert (Hread :
    Reader.read self from_item to_item None None
    = Ok (py_slice names (Some (Z.of_nat p1)) (Some (Z.of_nat p2 + 1)),
          map (item_slice offsets times) (seq p1 (p2 - p1 + 1)),
          map (fun p => {| ncols := ncols features;
                           rows := item_slice offsets (rows features) p |})
              (seq p1 (p2 - p1 + 1)))).
  { unfold Reader.read. rewrite Hitems. cbn [bind]. rewrite Hbounds.
    cbn [bind]. rewrite Hdata. cbn [bind]. rewrite Hsplit. reflexivity. }
  split; [exact Hread|]. split; [|split].
  - intros Hlt. split.
    + apply (file_ends_rebased offsets (length times)); [assumption..|lia].
    + intros sliced_features sliced_times. unfold Reader.read_split.
      apply Nat.ltb_lt in Hlt. now rewrite Hlt.
  - intros ->. rewrite Hread.
    replace (p2 - p2 + 1)%nat with 1%nat by lia. reflexivity.
  - split; [reflexivity|]. do 3 eexists.
    split; [vm_compute; reflexivity|]. repeat split; reflexivity.
Qed.

Lemma abc_wf_index : wf_index [3; 6; 8] 9.
Proof.
  split.
  - intros i j a b Hij Ha Hb.
    destruct i as [|[|[|?]]]; destruct j as [|[|[|?]]];
      simplify_eq/=; lia.
  - repeat constructor; lia.
Qed.

Lemma read_splits_by_item_witness :
  Reader.read abc None None None None
  = Ok ([u "a"; u "b"; u "c"],
        [times_from 1 4; times_from 1 3; times_from 1 2],
        [frames_from 10 4; frames_from 14 3; frames_from 17 2]).
Proof.
  refine (eq_trans
    (proj1 (read_splits_by_item abc None None [u "a"; u "b"; u "c"] 0 2
              [3; 6; 8]
              (times_from 1 4 ++ times_from 1 3 ++ times_from 1 2)
              (frames_from 10 9) _ _ _ _ _ _ _ _ _ _)) _).
  - vm_compute. reflexivity.
  - reflexivity.
  - reflexivity.
  - reflexivity.
  - reflexivity.
  - reflexivity.
  - reflexivity.
  - exact abc_wf_index.
  - simpl. lia.
  - vm_compute. discriminate.
  - vm_compute. reflexivity.
Defined.

(** ** [Reader.read]: the axes of the features *)







Example legacy_item_given_init :
  Reader.init legacy_item_files "f.h5" "features"
    (Some (<["legacy" := VBool true]> (Reader.index one_item)))
  = Ok legacy_item_given.
Proof. vm_compute. reflexivity. Qed.


(** ** The codecs *)

Ltac step_read H :=
  match type of H with
  | bind ?r _ = Ok _ =>
      let E := fresh "E" in
      destruct r eqn:E; cbn [bind] in H; [|discriminate H]
  | (if ?b then _ else _) = Ok _ =>
      let E := fresh "E" in destruct b eqn:E
  end.

(** C9, on the code. [Index.read] of both modules and [IndexV1_0.read]
    never return the index of a sparse store: the branch of the sparse
    format reads the attribute [dim] and the dataset [frames] from [g],
    which is not bound, where [LegacyIndex.read] reads them from [group]
    and returns them. *)
Theorem sparse_read_raises :
  (forall group index,
     attrs group !! "format" = Some (AStr "sparse") ->
     H5features2.Index_read group <> Ok index /\
     H5features.Index_read group <> Ok index /\
     H5features.IndexV1_0_read group <> Ok index) /\
  H5features2.Index_read sparse_group = Raise (NameError "g") /\
  H5features.Index_read sparse_group = Raise (NameError "g") /\
  H5features.IndexV1_0_read sparse_v1_group = Raise (NameError "g") /\
  (exists index,
     H5features2.LegacyIndex_read sparse_legacy_group = Ok index /\
     H5features.IndexV0_1_read sparse_legacy_group = Ok index /\
     index !! "dim" = Some (VAttr (AInt 3)) /\
     index !! "frames" = Some (VArray (DInt [2; 5]))).
Proof.
  split; [|split; [|split; [|split]]]; try reflexivity.
  - intros group index Hformat.
    assert (Hattr : attrs_getitem group "format" = Ok (AStr "sparse"))
      by (unfold attrs_getitem; now rewrite Hformat).
    repeat split; intros H.
    + unfold H5features2.Index_read in H. do 4 step_read H.
      rewrite Hattr in H. cbn in H. discriminate.
    + unfold H5features.Index_read in H. do 4 step_read H.
      rewrite Hattr in H. cbn in H. discriminate.
    + unfold H5features.IndexV1_0_read in H. do 4 step_read H.
      rewrite Hattr in H. cbn in H. discriminate.
  - eexists. split; [vm_compute; reflexivity|].
    split; [vm_compute; reflexivity|]. split; reflexivity.
Qed.

Lemma legacy_read_keys (group : Group) (index : gmap string pyval) :
  H5features2.LegacyIndex_read group = Ok index ->
  index !! "items" = None /\ exists files, index !! "files" = Some (VList files).
Proof.
  unfold H5features2.LegacyIndex_read. intros H. do 7 step_read H.
  step_read H.
  - do 2 step_read H. injection H as <-. split; [reflexivity|].
    eexists. reflexivity.
  - injection H as <-. split; [reflexivity|]. eexists. reflexivity.
Qed.

Lemma current_read_keys (group : Group) (index : gmap string pyval) :
  H5features2.Index_read group = Ok index ->
  (exists items, index !! "items" = Some (VList items)) /\
  index !! "files" = None.
Proof.
  unfold H5features2.Index_read. intros H. do 5 step_read H.
  step_read H; [discriminate H|].
  injection H as <-. split; [eexists|]; reflexivity.
Qed.

Lemma v1_read_keys (group : Group) (index : gmap string pyval) :
  H5features.IndexV1_0_read group = Ok index ->
  (exists items, index !! "items" = Some (VList items)) /\
  index !! "files" = None.
Proof.
  unfold H5features.IndexV1_0_read. intros H. do 5 step_read H.
  step_read H; [discriminate H|].
  injection H as <-. split; [eexists|]; reflexivity.
Qed.

(** C8, on the code. The reads of the current and of the 1.0 layout return
    the names under the key [items]; the read of the legacy layout returns
    them under [files] and has no [items]. [Reader.read] takes the names
    from [items]: on the index of a legacy store it raises [KeyError],
    where the same item in the current layout is read. *)
Theorem legacy_index_has_no_items :
  (forall group index,
     H5features2.LegacyIndex_read group = Ok index \/
     H5features.IndexV0_1_read group = Ok index ->
     index !! "items" = None /\
     exists files, index !! "files" = Some (VList files)) /\
  (forall group index,
     H5features2.Index_read group = Ok index \/
     H5features.Index_read group = Ok index \/
     H5features.IndexV1_0_read group = Ok index ->
     (exists items, index !! "items" = Some (VList items)) /\
     index !! "files" = None) /\
  (forall self from_item to_item from_time to_time,
     Reader.index self !! "items" = None ->
     Reader.read self from_item to_item from_time to_time
     = Raise (KeyError "items")) /\
  Reader.init legacy_item_files "f.h5" "features" None = Ok legacy_item /\
  Reader.read legacy_item None None None None = Raise (KeyError "items") /\
  Reader.init (fun _ => Some (<["features" := one_item_group]> ∅))
    "f.h5" "features" None = Ok one_item /\
  Reader.read one_item None None None None
  = Ok ([u "a"], [times_from 1 4], [frames_from 10 4]).
Proof.
  split; [|split; [|split]].
  - intros group index [H|H]; now apply legacy_read_keys in H.
  - intros group index [H|[H|H]];
      [now apply current_read_keys in H|now apply current_read_keys in H|
       now apply v1_read_keys in H].
  - intros self from_item to_item from_time to_time Hnone.
    unfold Reader.read, Reader.read_items, dict_getitem.
    now rewrite Hnone.
  - repeat split; vm_compute; reflexivity.
Qed.

(** * Further properties of the code *)

(** ** [Index.write]: what it touches *)

Lemma touches_only_reads {A} (name : string) (f : Group -> result A) :
  touches_only name (reads f).
Proof. intros group. split; [reflexivity|]. intros key _. reflexivity. Qed.

Lemma touches_only_pure {A} (name : string) (r : result A) :
  touches_only name (pure r).
Proof. intros group. split; [reflexivity|]. intros key _. reflexivity. Qed.

Lemma touches_only_bind {A B} (name : string) (a : action A)
    (k : A -> action B) :
  touches_only name a -> (forall x, touches_only name (k x)) ->
  touches_only name (act_bind a k).
Proof.
  intros Ha Hk group. unfold act_bind.
  destruct (Ha group) as [Hattrs Hdata].
  destruct (a group) as [group' [x|e]]; simpl in *.
  - destruct (Hk x group') as [Hattrs' Hdata']. split.
    + now rewrite Hattrs'.
    + intros key Hkey. now rewrite Hdata', Hdata.
  - split; assumption.
Qed.

Lemma touches_only_resize (name : string) (n : Z) :
  touches_only name (group_resize name n).
Proof.
  intros group. unfold group_resize.
  destruct (d <- group_getitem group name;; a <- as_int d;; h5_resize a n);
    simpl; split; try reflexivity.
  intros key Hkey. now apply lookup_insert_ne.
Qed.

Lemma touches_only_setslice (name : string) (start : Z) (values : list Z) :
  touches_only name (group_setslice name start values).
Proof.
  intros group. unfold group_setslice.
  destruct (d <- group_getitem group name;; a <- as_int d;;
            h5_setslice a start values);
    simpl; split; try reflexivity.
  intros key Hkey. now apply lookup_insert_ne.
Qed.

Lemma write_touches_only (self : Index.t) (items : Items.t)
    (features : Features.t) :
  touches_only (Index.name self) (Index.write self items features).
Proof.
  unfold Index.write.
  apply touches_only_bind; [apply touches_only_reads|]. intros d_items.
  apply touches_only_bind.
  { destruct (0 <? ds_shape0 d_items)%nat;
      [apply touches_only_reads|apply touches_only_pure]. }
  intros last_index.
  apply touches_only_bind; [apply touches_only_reads|]. intros d_index.
  apply touches_only_bind; [apply touches_only_reads|]. intros continue.
  apply touches_only_bind; [apply touches_only_resize|]. intros _.
  apply touches_only_setslice.
Qed.

(** X1. Whatever its arguments, and whether it returns or raises,
    [Index.write] leaves the attributes of the group and every dataset other
    than the one of the index as they were. *)
Theorem Index_write_frame (self : Index.t) (items : Items.t)
    (features : Features.t) (group : Group) (key : string) :
  key <> Index.name self ->
  attrs (fst (Index.write self items features group)) = attrs group /\
  datasets (fst (Index.write self items features group)) !! key
  = datasets group !! key.
Proof.
  intros Hkey.
  destruct (write_touches_only self items features group) as [Hattrs Hdata].
  split; [exact Hattrs|]. now apply Hdata.
Qed.

Lemma Index_write_frame_witness :
  attrs (fst (Index.write Index.new (items_flag true)
                (features_of [3; 2]%nat) (store [u "A"] [4])))
  = attrs (store [u "A"] [4]) /\
  datasets (fst (Index.write Index.new (items_flag true)
                   (features_of [3; 2]%nat) (store [u "A"] [4]))) !! "items"
  = datasets (store [u "A"] [4]) !! "items".
Proof.
  apply (Index_write_frame Index.new (items_flag true)
           (features_of [3; 2]%nat) (store [u "A"] [4]) "items").
  discriminate.
Defined.

(** ** [Index.write]: missing datasets *)

(** X2. When the items dataset or the dataset of the index is missing from
    the group, [Index.write] raises [KeyError] with the name of the missing
    dataset (the one of the items first) and leaves the group as it was. *)
Theorem Index_write_missing_dataset (self : Index.t) (items : Items.t)
    (features : Features.t) (group : Group) :
  datasets group !! Items.name items = None \/
  datasets group !! Index.name self = None ->
  Index.write self items features group
  = (group,
     Raise (KeyError (match datasets group !! Items.name items with
                      | None => Items.name items
                      | Some _ => Index.name self
                      end))).
Proof.
  intros Hmiss. unfold Index.write, act_bind.
  unfold reads at 1. unfold group_getitem at 1.
  destruct (datasets group !! Items.name items) as [d_items|] eqn:Hitems;
    [|reflexivity].
  destruct Hmiss as [Hmiss|Hmiss]; [discriminate|].
  destruct (0 <? ds_shape0 d_items)%nat.
  - unfold reads at 1. unfold group_getitem at 1. now rewrite Hmiss.
  - unfold pure. unfold reads at 1. unfold group_getitem at 1.
    now rewrite Hmiss.
Qed.

Lemma Index_write_missing_dataset_witness :
  Index.write {| Index.name := "file_index" |} (items_flag false)
    (features_of [3]%nat) (store [] [])
  = (store [] [], Raise (KeyError "file_index")).
Proof.
  apply (Index_write_missing_dataset {| Index.name := "file_index" |}
           (items_flag false) (features_of [3]%nat) (store [] [])).
  right. reflexivity.
Defined.

(** ** [Index.write]: the run, whatever the number of names *)

Lemma write_run_base (self : Index.t) (items : Items.t)
    (features : Features.t) (group : Group) (d_items : dataset)
    (offsets : list Z) (continue : bool) :
  datasets group !! Items.name items = Some d_items ->
  datasets group !! Index.name self = Some (DInt offsets) ->
  ((0 < ds_shape0 d_items)%nat -> offsets <> []) ->
  Items.continue_last_item items group = Ok continue ->
  (continue = true -> offsets <> []) ->
  in_int64 (write_base d_items offsets) ->
  write_base d_items offsets + sum_list (Features.frame_counts features)
  <= int64_max ->
  Index.write self items features group =
    (set_dataset group (Index.name self)
       (DInt ((if continue then removelast offsets else offsets) ++
              prefix_sums (write_base d_items offsets)
                          (Features.frame_counts features))),
     Ok tt).
Proof.
  intros Hitems Hindex Hnames Hcont Hne Hlast Hmax.
  pose proof (frame_counts_nonneg features) as Hpos.
  set (fc := Features.frame_counts features) in *.
  set (kept := if continue then removelast offsets else offsets).
  assert (Hkept : exists nidx : nat,
             (nidx <= length offsets)%nat /\ kept = take nidx offsets /\
             (if continue then Z.of_nat (length offsets) - 1
              else Z.of_nat (length offsets)) = Z.of_nat nidx).
  { subst kept. destruct continue.
    - exists (pred (length offsets)).
      assert (0 < length offsets)%nat
        by (destruct offsets; [now elim Hne|simpl; lia]).
      repeat split; [lia|apply removelast_firstn_len|lia].
    - exists (length offsets). repeat split; [lia|]. now rewrite take_ge. }
  destruct Hkept as (nidx & Hnidx & -> & Hz).
  assert (Hlast_index :
            (if (0 <? ds_shape0 d_items)%nat
             then reads (fun group =>
                           d <- group_getitem group (Index.name self) ;;
                           a <- as_int d ;; h5_getitem a (-1))
             else pure (Ok (-1))) group
            = (group, Ok (write_base d_items offsets))).
  { unfold write_base.
    destruct (Nat.ltb_spec 0 (ds_shape0 d_items)) as [Hn|Hn]; [|reflexivity].
    unfold reads, group_getitem. rewrite Hindex. simpl bind.
    now rewrite h5_getitem_last by auto. }
  destruct (resize_setslice offsets
              (prefix_sums (write_base d_items offsets) fc)
              nidx Hnidx) as (resized & Hresize & Hset).
  unfold Index.write, act_bind.
  unfold reads at 1. unfold group_getitem at 1. rewrite Hitems.
  rewrite Hlast_index.
  unfold reads at 1. unfold group_getitem at 1. rewrite Hindex.
  unfold reads at 1. rewrite Hcont.
  fold fc. rewrite (new_offsets_exact _ _ Hpos Hlast Hmax).
  simpl ds_shape0. rewrite Hz.
  unfold group_resize, group_getitem. rewrite Hindex. simpl bind.
  rewrite Hresize.
  unfold group_setslice, group_getitem, set_dataset at 1. simpl datasets.
  rewrite lookup_insert_eq. simpl bind. rewrite Hset.
  fold (set_dataset group (Index.name self) (DInt resized)).
  now rewrite set_dataset_twice.
Qed.

(** X3. The offset from which [Index.write] counts the new frames is decided
    by the items dataset, not by the index: with an empty items dataset the
    sums start from [-1] even when the index holds offsets, which are kept
    in front of the new ones; with names in the items dataset they start
    from the last offset. *)
Theorem Index_write_base (self : Index.t) (items : Items.t)
    (features : Features.t) (group : Group) (d_items : dataset)
    (offsets : list Z) :
  datasets group !! Items.name items = Some d_items ->
  datasets group !! Index.name self = Some (DInt offsets) ->
  ((0 < ds_shape0 d_items)%nat -> offsets <> []) ->
  Items.continue_last_item items group = Ok false ->
  in_int64 (write_base d_items offsets) ->
  write_base d_items offsets + sum_list (Features.frame_counts features)
  <= int64_max ->
  Index.write self items features group =
    (set_dataset group (Index.name self)
       (DInt (offsets ++
              prefix_sums (if (ds_shape0 d_items =? 0)%nat then -1
                           else last_offset offsets)
                          (Features.frame_counts features))),
     Ok tt).
Proof.
  intros Hitems Hindex Hnames Hcont Hlast Hmax.
  rewrite (write_run_base self items features group d_items offsets false);
    try assumption; [|discriminate].
  unfold write_base.
  destruct (ds_shape0 d_items); reflexivity.
Qed.

(** No name, but the offsets 4 and 7 in the index: the new item of 3 frames
    ends at 2. *)
Lemma Index_write_base_witness :
  Index.write Index.new (items_flag false) (features_of [3]%nat)
    (store [] [4; 7])
  = (set_dataset (store [] [4; 7]) "index" (DInt [4; 7; 2]), Ok tt).
Proof.
  apply (Index_write_base Index.new (items_flag false) (features_of [3]%nat)
           (store [] [4; 7]) (DStr []) [4; 7]).
  - reflexivity.
  - reflexivity.
  - simpl. lia.
  - reflexivity.
  - split; vm_compute; discriminate.
  - vm_compute. discriminate.
Defined.

(** ** [Index.write]: the order of the offsets *)

Lemma sum_take_mono (fc : list Z) (i j : nat) :
  Forall (fun x => 0 <= x) fc -> (i <= j)%nat ->
  sum_list (take i fc) <= sum_list (take j fc).
Proof.
  intros Hpos Hij.
  replace (take i fc) with (take i (take j fc))
    by (rewrite take_take; f_equal; lia).
  rewrite <- (take_drop i (take j fc)) at 2. rewrite sum_list_app.
  assert (0 <= sum_list (drop i (take j fc))); [|lia].
  apply sum_list_nonneg. now apply Forall_drop, Forall_take.
Qed.

Lemma prefix_sums_nondecreasing (last : Z) (fc : list Z) :
  Forall (fun x => 0 <= x) fc -> nondecreasing (prefix_sums last fc).
Proof.
  intros Hpos i j a b Hij Ha Hb.
  assert (Hj : (j < length fc)%nat).
  { apply lookup_lt_Some in Hb. now rewrite prefix_sums_length in Hb. }
  rewrite prefix_sums_lookup in Ha, Hb by lia.
  injection Ha as <-. injection Hb as <-.
  pose proof (sum_take_mono fc (S i) (S j) Hpos ltac:(lia)). lia.
Qed.

Lemma nondecreasing_app (a b : list Z) :
  nondecreasing a -> nondecreasing b ->
  (forall x y, x ∈ a -> y ∈ b -> x <= y) ->
  nondecreasing (a ++ b).
Proof.
  intros Ha Hb Hab i j x y Hij Hx Hy.
  destruct (Nat.lt_ge_cases j (length a)) as [Hj|Hj].
  - rewrite lookup_app_l in Hx, Hy by lia. now apply (Ha i j).
  - rewrite lookup_app_r in Hy by lia.
    destruct (Nat.lt_ge_cases i (length a)) as [Hi|Hi].
    + rewrite lookup_app_l in Hx by lia.
      apply Hab; eapply list_elem_of_lookup_2; eassumption.
    + rewrite lookup_app_r in Hx by lia.
      apply (Hb (i - length a)%nat (j - length a)%nat); [lia|assumption..].
Qed.

Lemma nondecreasing_take (l : list Z) (n : nat) :
  nondecreasing l -> nondecreasing (take n l).
Proof.
  intros Hl i j a b Hij Ha Hb.
  apply lookup_take_Some in Ha as [Ha _]. apply lookup_take_Some in Hb as [Hb _].
  now apply (Hl i j).
Qed.

Lemma nondecreasing_le_last (l : list Z) (x : Z) :
  nondecreasing l -> x ∈ l -> x <= last_offset l.
Proof.
  intros Hl Hx. apply list_elem_of_lookup_1 in Hx as [i Hi].
  assert (Hne : l <> []) by (intros ->; discriminate).
  pose proof (lookup_lt_Some _ _ _ Hi).
  apply (Hl i (pred (length l))); [lia|assumption|].
  now apply lookup_last.
Qed.

(** X4. Every write that does not overflow keeps the index in order: when
    the offsets of the store (one by name) are non-decreasing and not below
    [-1], so are the offsets after the write, with or without continuation
    of the last item. *)
Theorem Index_write_keeps_order (self : Index.t) (items : Items.t)
    (features : Features.t) (group : Group) (d_items : dataset)
    (offsets : list Z) (continue : bool) :
  datasets group !! Items.name items = Some d_items ->
  datasets group !! Index.name self = Some (DInt offsets) ->
  ds_shape0 d_items = length offsets ->
  Items.continue_last_item items group = Ok continue ->
  (continue = true -> offsets <> []) ->
  nondecreasing offsets ->
  Forall (fun e => -1 <= e) offsets ->
  last_offset offsets + sum_list (Features.frame_counts features) <= int64_max ->
  exists updated,
    Index.write self items features group
    = (set_dataset group (Index.name self) (DInt updated), Ok tt) /\
    nondecreasing updated /\
    Forall (fun e => -1 <= e) updated.
Proof.
  intros Hitems Hindex Hlen Hcont Hne Hord Hlow Hmax.
  pose proof (frame_counts_nonneg features) as Hpos.
  assert (Hlast : -1 <= last_offset offsets).
  { destruct offsets as [|o offsets'] eqn:E; [reflexivity|]. rewrite <- E in *.
    apply (proj1 (Forall_lookup _ _) Hlow (pred (length offsets))).
    apply lookup_last. congruence. }
  pose proof (sum_list_nonneg _ Hpos) as Hsum.
  eexists. split; [|split].
  - apply (write_run self items features group d_items offsets continue);
      try assumption.
    unfold in_int64, int64_min. lia.
  - assert (Hkept : exists n, (if continue then removelast offsets else offsets)
                              = take n offsets).
    { destruct continue; [eexists; apply removelast_firstn_len|].
      exists (length offsets). now rewrite take_ge. }
    destruct Hkept as [n ->].
    apply nondecreasing_app.
    + now apply nondecreasing_take.
    + now apply prefix_sums_nondecreasing.
    + intros x y Hx Hy. apply elem_of_take in Hx as (i & Hx & _).
      apply list_elem_of_lookup_2 in Hx.
      pose proof (nondecreasing_le_last offsets x Hord Hx).
      pose proof (prefix_sums_bounds _ (last_offset offsets) Hpos) as Hb.
      apply (proj1 (Forall_forall _ _) Hb) in Hy. lia.
  - apply Forall_app. split.
    + destruct continue; [|assumption].
      rewrite removelast_firstn_len. now apply Forall_take.
    + pose proof (prefix_sums_bounds _ (last_offset offsets) Hpos) as Hb.
      eapply List.Forall_impl; [|exact Hb]. simpl. intros v Hv. lia.
Qed.

Lemma Index_write_keeps_order_witness :
  exists updated,
    Index.write Index.new (items_flag true) (features_of [3; 2]%nat)
      (store [u "A"] [4])
    = (set_dataset (store [u "A"] [4]) "index" (DInt updated), Ok tt) /\
    nondecreasing updated /\
    Forall (fun e => -1 <= e) updated.
Proof.
  apply (Index_write_keeps_order Index.new (items_flag true)
           (features_of [3; 2]%nat) (store [u "A"] [4]) (DStr [u "A"]) [4] true).
  - reflexivity.
  - reflexivity.
  - reflexivity.
  - reflexivity.
  - discriminate.
  - intros i j a b Hij Ha Hb.
    destruct i as [|?]; destruct j as [|?]; simplify_eq/=; lia.
  - repeat constructor. lia.
  - vm_compute. discriminate.
Defined.

(** ** [Index.write]: continuation *)

Lemma prefix_sums_nil (last : Z) : prefix_sums last [] = [].
Proof. reflexivity. Qed.

(** X5. A write that continues the last item gives the index of a store in
    which that item had been written at once: after items of [done] frames
    and a last item of [f] frames, a continuing write whose first array has
    [n] frames leaves the offsets of the items [done], of one item of
    [f + n] frames, and of the other new items. *)
Theorem Index_write_continue_merges (self : Index.t) (items : Items.t)
    (features : Features.t) (group : Group) (d_items : dataset)
    (done : list Z) (f : Z) (x : ndarray2) (xs : list ndarray2) :
  datasets group !! Items.name items = Some d_items ->
  datasets group !! Index.name self
  = Some (DInt (prefix_sums (-1) (done ++ [f]))) ->
  ds_shape0 d_items = length (done ++ [f]) ->
  Items.continue_last_item items group = Ok true ->
  Features.data features = x :: xs ->
  Forall (fun c => 0 <= c) done -> 0 <= f ->
  -1 + sum_list done + f + sum_list (Features.frame_counts features)
  <= int64_max ->
  Index.write self items features group
  = (set_dataset group (Index.name self)
       (DInt (prefix_sums (-1)
                (done ++ [f + Z.of_nat (shape0 x)] ++
                 map (fun y => Z.of_nat (shape0 y)) xs))),
     Ok tt).
Proof.
  intros Hitems Hindex Hlen Hcont Hdata Hdone Hf Hmax.
  pose proof (sum_list_nonneg _ Hdone) as Hsum.
  pose proof (sum_list_nonneg _ (frame_counts_nonneg features)) as Hnew.
  assert (Hlast : last_offset (prefix_sums (-1) (done ++ [f]))
                  = -1 + sum_list done + f).
  { rewrite last_offset_all, sum_list_app. simpl. lia. }
  rewrite (write_run self items features group d_items
             (prefix_sums (-1) (done ++ [f])) true); try assumption.
  - do 3 f_equal. rewrite Hlast.
    unfold Features.frame_counts. rewrite Hdata. simpl map.
    rewrite (prefix_sums_app done (-1) [f]), prefix_sums_cons, prefix_sums_nil.
    rewrite removelast_last.
    rewrite (prefix_sums_app done (-1)). f_equal.
    simpl app. rewrite !prefix_sums_cons. f_equal; [lia|]. f_equal. lia.
  - now rewrite prefix_sums_length.
  - intros _ H. apply (f_equal (@length Z)) in H.
    rewrite prefix_sums_length, length_app in H. simpl in H. lia.
  - rewrite Hlast. unfold in_int64, int64_min. lia.
  - rewrite Hlast. lia.
Qed.

(** Item A written with 5 frames and continued with 3: one slot, at 7. *)
Lemma Index_write_continue_merges_witness :
  Index.write Index.new (items_flag true) (features_of [3]%nat)
    (store [u "A"] [4])
  = (set_dataset (store [u "A"] [4]) "index" (DInt [7]), Ok tt).
Proof.
  apply (Index_write_continue_merges Index.new (items_flag true)
           (features_of [3]%nat) (store [u "A"] [4]) (DStr [u "A"])
           [] 5 (frames 3) []).
  - reflexivity.
  - reflexivity.
  - reflexivity.
  - reflexivity.
  - reflexivity.
  - constructor.
  - lia.
  - vm_compute. discriminate.
Defined.

(** ** [Index.write]: a write of nothing *)

(** X6. A write of no array. Without continuation the group is left as it
    was. With continuation of the last item the index loses its last
    offset: the slot that the first new array would have filled is cut and
    nothing is written in its place. *)
Theorem Index_write_nothing (self : Index.t) (items : Items.t)
    (features : Features.t) (group : Group) (d_items : dataset)
    (offsets : list Z) (continue : bool) :
  datasets group !! Items.name items = Some d_items ->
  datasets group !! Index.name self = Some (DInt offsets) ->
  ((0 < ds_shape0 d_items)%nat -> offsets <> []) ->
  Items.continue_last_item items group = Ok continue ->
  (continue = true -> offsets <> []) ->
  Forall in_int64 offsets ->
  Features.data features = [] ->
  Index.write self items features group
  = (if continue
     then set_dataset group (Index.name self) (DInt (removelast offsets))
     else group,
     Ok tt).
Proof.
  intros Hitems Hindex Hnames Hcont Hne Hrange Hdata.
  assert (Hfc : Features.frame_counts features = [])
    by (unfold Features.frame_counts; now rewrite Hdata).
  assert (Hbase : in_int64 (write_base d_items offsets)).
  { unfold write_base. destruct (0 <? ds_shape0 d_items)%nat eqn:E.
    - apply Nat.ltb_lt in E. specialize (Hnames E).
      apply (proj1 (Forall_lookup _ _) Hrange (pred (length offsets))).
      now apply lookup_last.
    - split; vm_compute; discriminate. }
  rewrite (write_run_base self items features group d_items offsets continue);
    try assumption.
  - rewrite Hfc, prefix_sums_nil, app_nil_r. destruct continue; [reflexivity|].
    now rewrite set_dataset_same.
  - rewrite Hfc. simpl. unfold in_int64 in Hbase. lia.
Qed.

Lemma Index_write_nothing_witness :
  Index.write Index.new (items_flag true) (features_of []%nat)
    (store [u "A"; u "B"] [4; 7])
  = (set_dataset (store [u "A"; u "B"] [4; 7]) "index" (DInt [4]), Ok tt).
Proof.
  apply (Index_write_nothing Index.new (items_flag true) (features_of []%nat)
           (store [u "A"; u "B"] [4; 7]) (DStr [u "A"; u "B"]) [4; 7] true).
  - reflexivity.
  - reflexivity.
  - discriminate.
  - reflexivity.
  - discriminate.
  - repeat constructor; vm_compute; discriminate.
  - reflexivity.
Defined.

(** ** [Index.create] and the first write *)

(** X7. [create] followed by the first write: in a group without a dataset
    of the name of the index and with an empty items dataset, creating the
    index and writing arrays of [fc] frames stores the offsets
    [fc[0] - 1, fc[0] + fc[1] - 1, ...]. In a group that has a dataset of
    that name, [create] raises and the group is left as it was. *)
Theorem Index_create_then_write (self : Index.t) (items : Items.t)
    (features : Features.t) (group : Group) (d_items : dataset) :
  datasets group !! Index.name self = None ->
  datasets group !! Items.name items = Some d_items ->
  ds_shape0 d_items = 0%nat ->
  (forall g, Items.continue_last_item items g = Ok false) ->
  sum_list (Features.frame_counts features) - 1 <= int64_max ->
  act_bind (Index.create self) (fun _ => Index.write self items features) group
  = (set_dataset group (Index.name self)
       (DInt (prefix_sums (-1) (Features.frame_counts features))),
     Ok tt) /\
  forall d, exists e,
    Index.create self (set_dataset group (Index.name self) d)
    = (set_dataset group (Index.name self) d, Raise e).
Proof.
  intros Hnone Hitems Hempty Hcont Hmax. split.
  - unfold act_bind, Index.create. rewrite Hnone.
    assert (Hne : Items.name items <> Index.name self) by congruence.
    rewrite (write_run self items features
               (set_dataset group (Index.name self) (DInt [])) d_items [] false).
    + now rewrite set_dataset_twice.
    + unfold set_dataset. simpl. now rewrite lookup_insert_ne.
    + unfold set_dataset. simpl. apply lookup_insert_eq.
    + assumption.
    + apply Hcont.
    + discriminate.
    + split; vm_compute; discriminate.
    + change (last_offset []) with (-1). lia.
  - intros d. exists ValueError.
    unfold Index.create, set_dataset at 1. simpl datasets.
    now rewrite lookup_insert_eq.
Qed.

Lemma Index_create_then_write_witness :
  act_bind (Index.create {| Index.name := "file_index" |})
    (fun _ => Index.write {| Index.name := "file_index" |}
                (items_flag false) (features_of [5; 3]%nat))
    (store [] [])
  = (set_dataset (store [] []) "file_index" (DInt [4; 7]), Ok tt) /\
  forall d, exists e,
    Index.create {| Index.name := "file_index" |}
      (set_dataset (store [] []) "file_index" d)
    = (set_dataset (store [] []) "file_index" d, Raise e).
Proof.
  apply (Index_create_then_write {| Index.name := "file_index" |}
           (items_flag false) (features_of [5; 3]%nat) (store [] [])
           (DStr [])).
  - reflexivity.
  - reflexivity.
  - reflexivity.
  - reflexivity.
  - vm_compute. discriminate.
Defined.

(** ** Writing, then reading *)

Lemma read_after_write_current (group : Group) (updated : list Z)
    (index : gmap string pyval) :
  H5features.Index_read group = Ok index ->
  H5features.Index_read (set_dataset group "index" (DInt updated))
  = Ok (<["index" := VArray (DInt updated)]> index).
Proof.
  unfold H5features.Index_read, group_getitem, attrs_getitem, set_dataset.
  cbn [datasets attrs]. intros H.
  rewrite lookup_insert_ne by discriminate. rewrite lookup_insert_eq.
  destruct (datasets group !! "items") as [d|]; [|discriminate H].
  cbn [bind] in *. destruct (as_str d) as [items|]; [|discriminate H].
  cbn [bind] in *.
  destruct (datasets group !! "index") as [d_index|]; [|discriminate H].
  cbn [bind] in *. rewrite lookup_insert_ne by discriminate.
  destruct (datasets group !! "times") as [d_times|]; [|discriminate H].
  cbn [bind] in *.
  destruct (attrs group !! "format") as [format|]; [|discriminate H].
  cbn [bind] in *. destruct (is_sparse format); [discriminate H|].
  injection H as <-. reflexivity.
Qed.

Lemma read_after_write_v1 (group : Group) (updated : list Z)
    (index : gmap string pyval) :
  H5features.IndexV1_0_read group = Ok index ->
  H5features.IndexV1_0_read (set_dataset group "file_index" (DInt updated))
  = Ok (<["index" := VArray (DInt updated)]> index).
Proof.
  unfold H5features.IndexV1_0_read, group_getitem, attrs_getitem, set_dataset.
  cbn [datasets attrs]. intros H.
  rewrite lookup_insert_ne by discriminate. rewrite lookup_insert_eq.
  destruct (datasets group !! "files") as [d|]; [|discriminate H].
  cbn [bind] in *. destruct (as_str d) as [items|]; [|discriminate H].
  cbn [bind] in *.
  destruct (datasets group !! "file_index") as [d_index|]; [|discriminate H].
  cbn [bind] in *. rewrite lookup_insert_ne by discriminate.
  destruct (datasets group !! "times") as [d_times|]; [|discriminate H].
  cbn [bind] in *.
  destruct (attrs group !! "format") as [format|]; [|discriminate H].
  cbn [bind] in *. destruct (is_sparse format); [discriminate H|].
  injection H as <-. reflexivity.
Qed.

(** X8. What [write] stores, [read] returns, for the index classes of the
    versions 1.1 and 1.0: when the index of the group can be read, it can be
    read after a write that does not overflow, and it is the index read
    before with the updated offsets under [index]. *)
Theorem write_then_read (c : H5features.index_class) (items : Items.t)
    (features : Features.t) (group : Group) (d_items : dataset)
    (offsets : list Z) (continue : bool) (index : gmap string pyval) :
  c <> H5features.IndexV0_1 ->
  datasets group !! Items.name items = Some d_items ->
  datasets group !! Index.name (H5features.instance c) = Some (DInt offsets) ->
  ds_shape0 d_items = length offsets ->
  Items.continue_last_item items group = Ok continue ->
  (continue = true -> offsets <> []) ->
  in_int64 (last_offset offsets) ->
  last_offset offsets + sum_list (Features.frame_counts features) <= int64_max ->
  H5features.read c group = Ok index ->
  H5features.read c
    (fst (Index.write (H5features.instance c) items features group))
  = Ok (<["index" :=
            VArray (DInt ((if continue then removelast offsets else offsets) ++
                          prefix_sums (last_offset offsets)
                                      (Features.frame_counts features)))]>
          index).
Proof.
  intros Hc Hitems Hindex Hlen Hcont Hne Hlast Hmax Hread.
  rewrite (write_run (H5features.instance c) items features group d_items
             offsets continue) by assumption.
  cbn [fst]. destruct c; [congruence| |].
  - now apply read_after_write_v1.
  - now apply read_after_write_current.
Qed.

Lemma write_then_read_witness :
  H5features.read H5features.Index
    (fst (Index.write (H5features.instance H5features.Index)
            (items_flag false) (features_of [2]%nat) one_item_group))
  = Ok (<["index" := VArray (DInt ([3] ++ prefix_sums 3 [2]))]>
          (Reader.index one_item)).
Proof.
  apply (write_then_read H5features.Index (items_flag false)
           (features_of [2]%nat) one_item_group (DStr [u "a"]) [3] false
           (Reader.index one_item)).
  - discriminate.
  - reflexivity.
  - reflexivity.
  - reflexivity.
  - reflexivity.
  - discriminate.
  - split; vm_compute; discriminate.
  - vm_compute. discriminate.
  - vm_compute. reflexivity.
Defined.

Lemma legacy_read_depends (group group' : Group) :
  attrs group' = attrs group ->
  (forall key, key <> "file_index" ->
     datasets group' !! key = datasets group !! key) ->
  H5features2.LegacyIndex_read group' = H5features2.LegacyIndex_read group.
Proof.
  intros Hattrs Hdata.
  unfold H5features2.LegacyIndex_read, group_getitem, attrs_getitem.
  rewrite Hattrs.
  rewrite (Hdata "files"), (Hdata "index"), (Hdata "times"), (Hdata "lines")
    by discriminate.
  reflexivity.
Qed.

(** X9. For the index class of the version 0.1 a write does not reach what
    its read returns: [IndexV0_1] inherits the dataset name [file_index],
    to which [write] writes, and its [read] takes the offsets from the
    dataset [index]. Whatever is written, [IndexV0_1.read] returns after
    the write what it returned before. *)
Theorem legacy_write_is_not_read (items : Items.t) (features : Features.t)
    (group : Group) :
  H5features.read H5features.IndexV0_1
    (fst (Index.write (H5features.instance H5features.IndexV0_1)
            items features group))
  = H5features.read H5features.IndexV0_1 group.
Proof.
  destruct (write_touches_only (H5features.instance H5features.IndexV0_1)
              items features group) as [Hattrs Hdata].
  apply legacy_read_depends; assumption.
Qed.

(** ** The reads of the index *)

(** X10. For a group whose dataset [items] holds names, [Index.read]
    returns exactly when the group also holds the datasets [index] and
    [times] and the attribute [format], and the format is not sparse; what
    it returns is the dictionary of these four entries as they are stored,
    and nothing else. *)
Theorem Index_read_returns (group : Group) (items : list ustring)
    (index : gmap string pyval) :
  datasets group !! "items" = Some (DStr items) ->
  (H5features2.Index_read group = Ok index <->
   exists d_index d_times format,
     datasets group !! "index" = Some d_index /\
     datasets group !! "times" = Some d_times /\
     attrs group !! "format" = Some format /\
     format <> AStr "sparse" /\
     index = <["items" := VList items]> (<["index" := VArray d_index]>
             (<["times" := VArray d_times]> (<["format" := VAttr format]> ∅)))).
Proof.
  intros Hitems.
  unfold H5features2.Index_read, group_getitem, attrs_getitem, is_sparse.
  rewrite Hitems. cbn [bind as_str]. split.
  - intros H.
    destruct (datasets group !! "index") as [d_index|]; [|discriminate H].
    cbn [bind] in H.
    destruct (datasets group !! "times") as [d_times|]; [|discriminate H].
    cbn [bind] in H.
    destruct (attrs group !! "format") as [format|]; [|discriminate H].
    cbn [bind] in H.
    destruct (bool_decide_reflect (format = AStr "sparse")) as [|Hformat];
      [discriminate H|].
    injection H as <-. exists d_index, d_times, format.
    repeat split; (reflexivity || assumption).
  - intros (d_index & d_times & format & -> & -> & -> & Hf & ->).
    cbn [bind]. now rewrite bool_decide_eq_false_2.
Qed.

Lemma Index_read_returns_witness :
  H5features2.Index_read one_item_group = Ok (Reader.index one_item) <->
  exists d_index d_times format,
    datasets one_item_group !! "index" = Some d_index /\
    datasets one_item_group !! "times" = Some d_times /\
    attrs one_item_group !! "format" = Some format /\
    format <> AStr "sparse" /\
    Reader.index one_item
    = <["items" := VList [u "a"]]> (<["index" := VArray d_index]>
      (<["times" := VArray d_times]> (<["format" := VAttr format]> ∅))).
Proof.
  apply (Index_read_returns one_item_group [u "a"] (Reader.index one_item)).
  reflexivity.
Defined.

(** X11. A missing entry is a [KeyError] of [Index.read] that names it: the
    datasets [items], [index] and [times] and the attribute [format] are
    looked up in this order, and the first that is missing is reported. *)
Theorem Index_read_missing (group : Group) (items : list ustring) :
  (datasets group !! "items" = None ->
   H5features2.Index_read group = Raise (KeyError "items")) /\
  (datasets group !! "items" = Some (DStr items) ->
   (datasets group !! "index" = None ->
    H5features2.Index_read group = Raise (KeyError "index")) /\
   (is_Some (datasets group !! "index") ->
    datasets group !! "times" = None ->
    H5features2.Index_read group = Raise (KeyError "times")) /\
   (is_Some (datasets group !! "index") ->
    is_Some (datasets group !! "times") ->
    attrs group !! "format" = None ->
    H5features2.Index_read group = Raise (KeyError "format"))).
Proof.
  unfold H5features2.Index_read, group_getitem, attrs_getitem.
  split; [intros ->; reflexivity|]. intros ->. cbn [bind as_str].
  split; [intros ->; reflexivity|].
  split.
  - intros [d ->] ->. reflexivity.
  - intros [d ->] [d' ->] ->. reflexivity.
Qed.

(** X12. The reads of the versions 1.0 and 1.1 differ by the names of two
    datasets only: [IndexV1_0.read] of a group is [Index.read] of the group
    in which the datasets [files] and [file_index] are also found under
    [items] and [index]. *)
Theorem v1_read_is_current_read (group : Group) (files file_index : dataset) :
  datasets group !! "files" = Some files ->
  datasets group !! "file_index" = Some file_index ->
  H5features.IndexV1_0_read group
  = H5features.Index_read (as_current group files file_index).
Proof.
  intros Hfiles Hindex.
  unfold H5features.IndexV1_0_read, H5features.Index_read, as_current,
    group_getitem, attrs_getitem.
  cbn [datasets attrs]. rewrite Hfiles, Hindex.
  rewrite lookup_insert_eq.
  rewrite (lookup_insert_ne _ "items" "index") by discriminate.
  rewrite lookup_insert_eq.
  rewrite (lookup_insert_ne _ "items" "times") by discriminate.
  rewrite (lookup_insert_ne _ "index" "times") by discriminate.
  reflexivity.
Qed.

Lemma v1_read_is_current_read_witness :
  H5features.IndexV1_0_read v1_item_group = Ok (Reader.index one_item) /\
  H5features.IndexV1_0_read v1_item_group
  = H5features.Index_read
      (as_current v1_item_group (DStr [u "a"]) (DInt [3])).
Proof.
  split; [vm_compute; reflexivity|].
  apply (v1_read_is_current_read v1_item_group (DStr [u "a"]) (DInt [3]));
    reflexivity.
Defined.

(** ** The legacy names: errors and round trip *)

Lemma unichr_ok (c : Z) : code_point c -> unichr c = Ok c.
Proof.
  unfold unichr, code_point. intros H.
  destruct (Z.leb_spec 0 c); [|lia]. destruct (Z.ltb_spec c 1114112); [|lia].
  reflexivity.
Qed.

Lemma unichr_raise (c : Z) :
  ~ code_point c -> unichr c = Raise (unichr_error c).
Proof.
  unfold unichr, unichr_error, code_point. intros H.
  assert (E : (0 <=? c) && (c <? 1114112) = false).
  { apply andb_false_iff.
    destruct (Z.leb_spec 0 c); [right|now left].
    apply Z.ltb_ge. lia. }
  rewrite E. clear E.
  destruct ((- 2 ^ 31 <=? c) && (c <? 2 ^ 31)); reflexivity.
Qed.

Lemma unichr_error_cases (c : Z) :
  unichr_error c = ValueError \/ unichr_error c = OverflowError.
Proof. unfold unichr_error. destruct (_ && _); auto. Qed.

Lemma code_point_dec (c : Z) : {code_point c} + {~ code_point c}.
Proof.
  unfold code_point.
  destruct (Z_le_dec 0 c); [|right; lia].
  destruct (Z_lt_dec c 1114112); [left|right]; lia.
Qed.

(** The comprehension stops at the first integer that is not a code point,
    with the error of [unichr] for it. *)
Lemma for_each_unichr_first (before : list Z) (c : Z) (after : list Z) :
  Forall code_point before -> ~ code_point c ->
  for_each unichr (before ++ c :: after) = Raise (unichr_error c).
Proof.
  intros Hbefore Hc. induction Hbefore as [|b before Hb _ IH].
  - simpl. now rewrite (unichr_raise c Hc).
  - simpl. rewrite (unichr_ok b Hb). cbn [bind]. now rewrite IH.
Qed.

Lemma first_invalid (codes : list Z) :
  Forall code_point codes \/
  exists before c after,
    codes = before ++ c :: after /\ Forall code_point before /\
    ~ code_point c.
Proof.
  induction codes as [|c codes IH]; [left; constructor|].
  destruct (code_point_dec c) as [Hc|Hc].
  - destruct IH as [Hall|(before & c' & after & -> & Hbefore & Hc')].
    + left. now constructor.
    + right. exists (c :: before), c', after.
      split; [reflexivity|]. split; [now constructor|assumption].
  - right. exists [], c, codes. split; [reflexivity|].
    split; [constructor|assumption].
Qed.

Lemma not_all_code_points (before : list Z) (c : Z) (after : list Z) :
  ~ code_point c -> ~ Forall code_point (before ++ c :: after).
Proof.
  intros Hc H. apply Forall_app in H as [_ H]. now inversion H.
Qed.

(** X13. The decoding of the legacy names raises exactly when one of the
    integers is not a code point, and returns the names otherwise. Its only
    errors are those of [unichr] for the first such integer: [ValueError]
    when it fits a C [int], [OverflowError] when it does not. *)
Theorem read_files_errors (codes : list Z) :
  ((exists names, H5features2.read_files codes = Ok names) <->
   Forall code_point codes) /\
  (forall e, H5features2.read_files codes = Raise e ->
     (e = ValueError \/ e = OverflowError) /\ ~ Forall code_point codes) /\
  (forall before c after,
     codes = before ++ c :: after ->
     Forall code_point before -> ~ code_point c ->
     H5features2.read_files codes = Raise (unichr_error c)).
Proof.
  assert (Hfirst : forall before c after,
     codes = before ++ c :: after ->
     Forall code_point before -> ~ code_point c ->
     H5features2.read_files codes = Raise (unichr_error c)).
  { intros before c after -> Hbefore Hc. unfold H5features2.read_files.
    now rewrite for_each_unichr_first. }
  destruct (first_invalid codes)
    as [Hall|(before & c & after & Hcodes & Hbefore & Hc)].
  - pose proof (read_files_decode codes Hall) as Hread.
    split; [split; [auto|eauto]|]. split; [|exact Hfirst].
    intros e He. congruence.
  - pose proof (Hfirst before c after Hcodes Hbefore Hc) as Hread.
    assert (Hnot : ~ Forall code_point codes)
      by (rewrite Hcodes; now apply not_all_code_points).
    split; [split; [intros [names H]; congruence|tauto]|].
    split; [|exact Hfirst].
    intros e He. split; [|assumption].
    rewrite Hread in He. injection He as <-. apply unichr_error_cases.
Qed.

(** X14. The legacy read never returns an empty list of names: an empty
    dataset [files] gives one name, the empty one, and every text gives at
    least one. *)
Theorem read_files_never_empty (codes : list Z) :
  H5features2.read_files codes <> Ok [] /\
  H5features2.read_files [] = Ok [[]].
Proof.
  split; [|reflexivity].
  unfold H5features2.read_files.
  destruct (for_each unichr codes) as [chars|]; cbn [bind]; [|discriminate].
  rewrite join_characters, replace_unescape, split_split_names.
  intros [= H]. now apply split_names_nonempty in H.
Qed.

Lemma unescape_cons_other (a : Z) (s : ustring) :
  a <> 47 -> unescape (a :: s) = a :: unescape s.
Proof.
  intros Ha. destruct s as [|b s]; [reflexivity|].
  rewrite unescape_two.
  destruct (Z.eqb_spec a 47); [congruence|]. reflexivity.
Qed.

Lemma unescape_slash_free (name rest : ustring) :
  47 ∉ name -> unescape (name ++ rest) = name ++ unescape rest.
Proof.
  induction name as [|a name IH]; intros Hname; [reflexivity|].
  apply not_elem_of_cons in Hname as [Ha Hname].
  simpl app. rewrite unescape_cons_other by congruence.
  now rewrite IH.
Qed.

Lemma unescape_delimiter (rest : ustring) :
  unescape (47 :: 92 :: rest) = 47 :: 92 :: unescape rest.
Proof.
  rewrite unescape_two. simpl andb. cbv iota.
  now rewrite unescape_cons_other by discriminate.
Qed.

Lemma split_names_cons_other (a : Z) (s : ustring) :
  a <> 47 -> split_names (a :: s) = cons_first a (split_names s).
Proof.
  intros Ha. destruct s as [|b s]; [reflexivity|].
  rewrite split_names_two.
  destruct (Z.eqb_spec a 47); [congruence|]. reflexivity.
Qed.

Lemma split_names_slash_free (name : ustring) :
  47 ∉ name -> split_names name = [name].
Proof.
  induction name as [|a name IH]; intros Hname; [reflexivity|].
  apply not_elem_of_cons in Hname as [Ha Hname].
  rewrite split_names_cons_other by congruence. now rewrite IH.
Qed.

Lemma split_names_first (name rest : ustring) :
  47 ∉ name ->
  split_names (name ++ 47 :: 92 :: rest) = name :: split_names rest.
Proof.
  induction name as [|a name IH]; intros Hname.
  - simpl app. now rewrite split_names_two.
  - apply not_elem_of_cons in Hname as [Ha Hname].
    simpl app. rewrite split_names_cons_other by congruence.
    now rewrite IH.
Qed.

Lemma decode_joined (names : list ustring) :
  names <> [] -> Forall (fun name => 47 ∉ name) names ->
  unescape (py_join [47; 92] names) = py_join [47; 92] names /\
  split_names (py_join [47; 92] names) = names.
Proof.
  induction names as [|name names IH]; [congruence|]. intros _ Hall.
  inversion Hall as [|? ? Hname Hnames]; subst.
  destruct names as [|name' names].
  - simpl py_join. split.
    + rewrite <- (app_nil_r name) at 1. rewrite unescape_slash_free by assumption.
      simpl. now rewrite app_nil_r.
    + now apply split_names_slash_free.
  - destruct (IH ltac:(discriminate) Hnames) as [IHu IHs].
    rewrite join_cons by discriminate. split.
    + rewrite unescape_slash_free by assumption.
      change ([47; 92] ++ py_join [47; 92] (name' :: names))
        with (47 :: 92 :: py_join [47; 92] (name' :: names)).
      now rewrite unescape_delimiter, IHu.
    + change ([47; 92] ++ py_join [47; 92] (name' :: names))
        with (47 :: 92 :: py_join [47; 92] (name' :: names)).
      rewrite split_names_first by assumption. now rewrite IHs.
Qed.

Lemma joined_code_points (names : list ustring) :
  Forall (Forall code_point) names ->
  Forall code_point (py_join [47; 92] names).
Proof.
  induction 1 as [|name names Hname Hnames IH]; [constructor|].
  destruct names as [|name' names]; [exact Hname|].
  rewrite join_cons by discriminate.
  apply Forall_app. split; [assumption|].
  change ([47; 92] ++ py_join [47; 92] (name' :: names))
    with (47 :: 92 :: py_join [47; 92] (name' :: names)).
  constructor; [unfold code_point; lia|].
  constructor; [unfold code_point; lia|]. exact IH.
Qed.

(** X15. Names without [/] come back from the legacy encoding: the code
    points of such names, joined by the two characters [/\], are decoded to
    the list of these names. *)
Theorem read_files_of_joined_names (names : list ustring) :
  names <> [] -> Forall slash_free names ->
  H5features2.read_files (py_join (u "/\") names) = Ok names.
Proof.
  intros Hne Hnames. change (u "/\") with [47; 92].
  assert (Hcp : Forall (Forall code_point) names)
    by (eapply List.Forall_impl; [|exact Hnames]; now intros name [H _]).
  assert (Hsf : Forall (fun name => 47 ∉ name) names)
    by (eapply List.Forall_impl; [|exact Hnames]; now intros name [_ H]).
  rewrite read_files_decode by now apply joined_code_points.
  unfold decode_names. destruct (decode_joined names Hne Hsf) as [-> ->].
  reflexivity.
Qed.

Lemma read_files_of_joined_names_witness :
  H5features2.read_files (py_join (u "/\") [u "s01"; u "s02"; u ""])
  = Ok [u "s01"; u "s02"; u ""].
Proof.
  apply (read_files_of_joined_names [u "s01"; u "s02"; u ""]).
  - discriminate.
  - repeat constructor; try (vm_compute; congruence);
      intros H; repeat (apply elem_of_cons in H as [H|H]; [discriminate|]);
      now apply elem_of_nil in H.
Defined.

(** ** [Reader.read]: what every read that returns gives *)

Lemma split_from_length {A} (ary : list A) (indices : list Z) :
  forall st, length (split_from ary st indices) = S (length indices).
Proof.
  induction indices as [|e rest IH]; intros st; [reflexivity|].
  simpl. now rewrite IH.
Qed.

Lemma py_getitem_nat_ok {A} (l : list A) (i : nat) (x : A) :
  py_getitem l (Z.of_nat i) = Ok x -> (i < length l)%nat.
Proof.
  unfold py_getitem. cbv zeta.
  assert (E : (Z.of_nat i <? 0) = false) by (apply Z.ltb_ge; lia).
  rewrite E. cbv iota. rewrite E. cbn [orb].
  destruct (Z.leb_spec (Z.of_nat (length l)) (Z.of_nat i)); [discriminate|].
  intros _. lia.
Qed.

Lemma get_item_lt (names : list ustring) (name : ustring) (p : nat) :
  Reader._get_item names name = Ok p -> (p < length names)%nat.
Proof.
  intros H. apply get_item_first_rank in H as [H _].
  now apply lookup_lt_Some in H.
Qed.

Lemma read_items_positions (self : Reader.t) from_item to_item names p1 p2 :
  Reader.read_items self from_item to_item = Ok (names, p1, p2) ->
  Reader.index self !! "items" = Some (VList names) /\
  (p1 <= p2 < length names)%nat.
Proof.
  unfold Reader.read_items, dict_getitem. intros H.
  destruct (Reader.index self !! "items") as [[l| | |]|];
    try discriminate H. cbn [bind as_names] in H. do 4 step_ok H.
  destruct (Nat.leb_spec a1 a2); simpl in H; [|discriminate].
  injection H as <- <- <-. split; [reflexivity|].
  match goal with
  | E : Reader._get_item l _ = Ok a2 |- _ => apply get_item_lt in E
  end. lia.
Qed.

Lemma read_bounds_positions (self : Reader.t) (p1 p2 : nat) from_time to_time
    index_group s1 i1 i2 :
  Reader.read_bounds self p1 p2 from_time to_time
  = Ok (index_group, s1, i1, i2) ->
  Reader.index self !! "index" = Some (VArray (DInt index_group)) /\
  (p2 < length index_group)%nat.
Proof.
  unfold Reader.read_bounds, dict_getitem. intros H.
  destruct (Reader.index self !! "index") as [[|[a| | |]| |]|];
    try discriminate H. cbn [bind as_int_array] in H. do 4 step_ok H.
  destruct from_time; [discriminate H|]. cbn [bind] in H.
  destruct to_time; [discriminate H|]. cbn [bind] in H.
  injection H as <- _ _ _. split; [reflexivity|].
  match goal with
  | E : py_getitem a (Z.of_nat p2) = Ok _ |- _ =>
      now apply py_getitem_nat_ok in E
  end.
Qed.

Lemma read_split_lengths (index_group : list Z) (p1 p2 : nat) (s1 : Z)
    (features : ndarray2) (times : list Q) :
  (p1 <= p2 < length index_group)%nat ->
  length (fst (Reader.read_split index_group p1 p2 s1 features times))
  = (p2 - p1 + 1)%nat /\
  length (snd (Reader.read_split index_group p1 p2 s1 features times))
  = (p2 - p1 + 1)%nat.
Proof.
  intros Hp. unfold Reader.read_split.
  destruct (Nat.ltb_spec p1 p2) as [Hlt|Hge]; cbn [fst snd].
  - unfold np_split_rows, np_split.
    rewrite length_map, !split_from_length, length_map.
    unfold Reader.file_ends. rewrite length_map.
    rewrite py_slice_in_range by lia.
    rewrite length_take, length_drop, !Nat2Z.id. lia.
  - simpl. lia.
Qed.

(** X16. Every read that returns gives three lists of one length: a name,
    an array of times and an array of features for each item from
    [from_item] to [to_item], whatever the offsets of the index are. *)
Theorem read_lists_aligned (self : Reader.t)
    (from_item to_item : option ustring) (from_time to_time : option Q)
    (items : list ustring) (times : list (list Q)) (features : list ndarray2) :
  Reader.read self from_item to_item from_time to_time
  = Ok (items, times, features) ->
  length times = length items /\ length features = length items /\
  (0 < length items)%nat.
Proof.
  unfold Reader.read. intros H. step_ok H.
  destruct a as [[names p1] p2]. step_ok H.
  destruct a as [[[index_group s1] i1] i2]. step_ok H.
  destruct a as [sliced_features sliced_times].
  match goal with
  | E : Reader.read_items _ _ _ = Ok _ |- _ =>
      apply read_items_positions in E as [_ Hnames]
  end.
  match goal with
  | E : Reader.read_bounds _ _ _ _ _ = Ok _ |- _ =>
      apply read_bounds_positions in E as [_ Hindex]
  end.
  destruct (read_split_lengths index_group p1 p2 s1 sliced_features
              sliced_times ltac:(lia)) as [Ht Hf].
  destruct (Reader.read_split index_group p1 p2 s1 sliced_features
              sliced_times) as [ts fs].
  injection H as <- <- <-. cbn [fst snd] in *.
  assert (Hitems :
    length (py_slice names (Some (Z.of_nat p1)) (Some (Z.of_nat p2 + 1)))
    = (p2 - p1 + 1)%nat).
  { rewrite py_slice_in_range by lia. rewrite length_take, length_drop. lia. }
  rewrite Ht, Hf, Hitems. lia.
Qed.

Lemma read_lists_aligned_witness :
  length [times_from 1 4; times_from 1 3; times_from 1 2]
  = length [u "a"; u "b"; u "c"] /\
  length [frames_from 10 4; frames_from 14 3; frames_from 17 2]
  = length [u "a"; u "b"; u "c"] /\
  (0 < length [u "a"; u "b"; u "c"])%nat.
Proof.
  apply (read_lists_aligned abc None None None None).
  vm_compute. reflexivity.
Defined.

(** ** [Reader.read]: the reads that raise *)

Lemma is_dense_true (v : pyval) :
  is_dense v = true <-> v = VAttr (AStr "dense").
Proof.
  unfold is_dense. destruct v as [| |a|]; try (split; discriminate).
  rewrite bool_decide_eq_true. split; congruence.
Qed.

(** X17. Only the dense format is read: when the entry [format] of the
    index is missing or is not ['dense'], no read returns; when it is there
    and the items and their offsets are found in a group that has features,
    the read raises the [IOError] of the sparse format. *)
Theorem read_not_dense (self : Reader.t)
    (from_item to_item : option ustring) (from_time to_time : option Q) :
  Reader.index self !! "format" <> Some (VAttr (AStr "dense")) ->
  (forall r, Reader.read self from_item to_item from_time to_time <> Ok r) /\
  (forall found bounds,
     Reader.read_items self from_item to_item = Ok found ->
     Reader.read_bounds self (snd (fst found)) (snd found) from_time to_time
     = Ok bounds ->
     is_Some (datasets (Reader.group self) !! "features") ->
     is_Some (Reader.index self !! "format") ->
     Reader.read self from_item to_item from_time to_time
     = Raise (IOError reading_sparse_features_not_yet_implemented)).
Proof.
  intros Hformat.
  assert (Hdata : forall i1 i2 r, Reader.read_data self i1 i2 <> Ok r).
  { intros i1 i2 r. unfold Reader.read_data, dict_getitem.
    destruct (group_getitem (Reader.group self) "features"); [|discriminate].
    cbn [bind].
    destruct (Reader.index self !! "format") as [v|]; [|discriminate].
    cbn [bind]. destruct (is_dense v) eqn:E; [|discriminate].
    apply is_dense_true in E. congruence. }
  split.
  - intros r H. unfold Reader.read in H. step_ok H.
    destruct a as [[names p1] p2]. step_ok H.
    destruct a as [[[index_group s1] i1] i2]. step_ok H.
    now apply (Hdata i1 i2 a).
  - intros [[names p1] p2] [[[index_group s1] i1] i2] Hitems Hbounds
           [d Hfeatures] [v Hv].
    cbn [fst snd] in Hbounds. unfold Reader.read.
    rewrite Hitems. cbn [bind]. rewrite Hbounds. cbn [bind].
    unfold Reader.read_data, group_getitem, dict_getitem.
    rewrite Hfeatures, Hv. cbn [bind].
    destruct (is_dense v) eqn:E; [|reflexivity].
    apply is_dense_true in E. congruence.
Qed.

Lemma read_not_dense_witness :
  (forall r,
     Reader.read
       {| Reader.filename := "f.h5"; Reader.groupname := "features";
          Reader.group := one_item_group; Reader.legacy := false;
          Reader.index :=
            <["format" := VAttr (AStr "sparse")]> (Reader.index one_item) |}
       None None None None <> Ok r) /\
  Reader.read
    {| Reader.filename := "f.h5"; Reader.groupname := "features";
       Reader.group := one_item_group; Reader.legacy := false;
       Reader.index :=
         <["format" := VAttr (AStr "sparse")]> (Reader.index one_item) |}
    None None None None
  = Raise (IOError reading_sparse_features_not_yet_implemented).
Proof.
  destruct (read_not_dense
    {| Reader.filename := "f.h5"; Reader.groupname := "features";
       Reader.group := one_item_group; Reader.legacy := false;
       Reader.index :=
         <["format" := VAttr (AStr "sparse")]> (Reader.index one_item) |}
    None None None None) as [Hnever Hraise].
  - vm_compute. discriminate.
  - split; [exact Hnever|].
    apply (Hraise ([u "a"], 0%nat, 0%nat) ([3], 0, 0, 3)).
    + vm_compute. reflexivity.
    + vm_compute. reflexivity.
    + eexists. reflexivity.
    + eexists. reflexivity.
Defined.

(** X18. A read of a store without items. With [from_item] omitted the
    read raises the [IndexError] of the empty list of names, which is not
    caught, whatever the other arguments; with [from_item] given it raises
    the [IOError] of the item that has no entry. *)
Theorem read_empty_store (self : Reader.t) :
  Reader.index self !! "items" = Some (VList []) ->
  (forall to_item from_time to_time,
     Reader.read self None to_item from_time to_time = Raise IndexError) /\
  (forall from_item to_item from_time to_time,
     Reader.read self (Some from_item) to_item from_time to_time
     = Raise (IOError no_entry_for_item)).
Proof.
  intros Hitems. split.
  - intros to_item from_time to_time.
    unfold Reader.read, Reader.read_items, dict_getitem. rewrite Hitems.
    destruct to_item; reflexivity.
  - intros from_item to_item from_time to_time.
    unfold Reader.read, Reader.read_items, dict_getitem. rewrite Hitems.
    destruct to_item; reflexivity.
Qed.

Lemma read_empty_store_witness :
  (forall to_item from_time to_time,
     Reader.read
       {| Reader.filename := "f.h5"; Reader.groupname := "features";
          Reader.group := store [] []; Reader.legacy := false;
          Reader.index := <["items" := VList []]> ∅ |}
       None to_item from_time to_time = Raise IndexError) /\
  (forall from_item to_item from_time to_time,
     Reader.read
       {| Reader.filename := "f.h5"; Reader.groupname := "features";
          Reader.group := store [] []; Reader.legacy := false;
          Reader.index := <["items" := VList []]> ∅ |}
       (Some from_item) to_item from_time to_time
     = Raise (IOError no_entry_for_item)).
Proof.
  apply (read_empty_store
    {| Reader.filename := "f.h5"; Reader.groupname := "features";
       Reader.group := store [] []; Reader.legacy := false;
       Reader.index := <["items" := VList []]> ∅ |}).
  reflexivity.
Defined.

Lemma py_getitem_raises {A} (l : list A) (i : Z) (e : exn) :
  py_getitem l i = Raise e -> e = IndexError.
Proof.
  unfold py_getitem. cbv zeta.
  destruct (_ || _); [congruence|].
  destruct (l !! _); [discriminate|congruence].
Qed.

Lemma py_getitem_beyond {A} (l : list A) (i : nat) :
  (length l <= i)%nat -> py_getitem l (Z.of_nat i) = Raise IndexError.
Proof.
  intros Hi. unfold py_getitem. cbv zeta.
  assert (E : (Z.of_nat i <? 0) = false) by (apply Z.ltb_ge; lia).
  rewrite E. cbv iota. rewrite E. cbn [orb].
  destruct (Z.leb_spec (Z.of_nat (length l)) (Z.of_nat i)); [reflexivity|lia].
Qed.

Lemma item_start_raises (index_group : list Z) (p : nat) (e : exn) :
  Reader.item_start index_group p = Raise e -> e = IndexError.
Proof.
  unfold Reader.item_start. destruct (p =? 0)%nat; [discriminate|].
  destruct (py_getitem index_group (Z.of_nat p - 1)) eqn:E; [discriminate|].
  cbn [bind]. intros [= <-]. now apply py_getitem_raises in E.
Qed.

(** X19. An index with fewer offsets than names: when the position of
    [to_item] is beyond the offsets of the index, the read raises
    [IndexError], with or without bounds in time. *)
Theorem read_index_too_short (self : Reader.t)
    (from_item to_item : option ustring) (from_time to_time : option Q)
    (names : list ustring) (p1 p2 : nat) (offsets : list Z) :
  Reader.read_items self from_item to_item = Ok (names, p1, p2) ->
  Reader.index self !! "index" = Some (VArray (DInt offsets)) ->
  (length offsets <= p2)%nat ->
  Reader.read self from_item to_item from_time to_time = Raise IndexError.
Proof.
  intros Hitems Hindex Hshort. unfold Reader.read. rewrite Hitems.
  cbn [bind].
  assert (Hbounds : Reader.read_bounds self p1 p2 from_time to_time
                    = Raise IndexError); [|now rewrite Hbounds].
  unfold Reader.read_bounds, dict_getitem. rewrite Hindex.
  cbn [bind as_int_array].
  destruct (Reader.item_start offsets p1) as [s1|e] eqn:E1;
    [|now apply item_start_raises in E1 as ->].
  cbn [bind].
  destruct (Reader.item_start offsets p2) as [s2|e] eqn:E2;
    [|now apply item_start_raises in E2 as ->].
  cbn [bind].
  destruct (py_getitem offsets (Z.of_nat p1)) as [e1|e] eqn:E3;
    [|now apply py_getitem_raises in E3 as ->].
  cbn [bind]. now rewrite py_getitem_beyond.
Qed.

Lemma read_index_too_short_witness :
  Reader.read
    {| Reader.filename := "f.h5"; Reader.groupname := "features";
       Reader.group := abc_group; Reader.legacy := false;
       Reader.index := <["index" := VArray (DInt [3; 6])]> abc_index |}
    None None None None = Raise IndexError.
Proof.
  apply (read_index_too_short
    {| Reader.filename := "f.h5"; Reader.groupname := "features";
       Reader.group := abc_group; Reader.legacy := false;
       Reader.index := <["index" := VArray (DInt [3; 6])]> abc_index |}
    None None None None [u "a"; u "b"; u "c"] 0 2 [3; 6]).
  - vm_compute. reflexivity.
  - reflexivity.
  - simpl. lia.
Defined.

(** ** [Reader.read]: a well-formed dense store *)

(** The run of a read without bounds in time. *)
Lemma read_run (self : Reader.t)
    (from_item to_item : option ustring) (names : list ustring) (p1 p2 : nat)
    (offsets : list Z) (times : list Q) (features : ndarray2) :
  Reader.read_items self from_item to_item = Ok (names, p1, p2) ->
  Reader.index self !! "index" = Some (VArray (DInt offsets)) ->
  Reader.index self !! "format" = Some (VAttr (AStr "dense")) ->
  Reader.legacy self = false ->
  datasets (Reader.group self) !! "features" = Some (DMat features) ->
  datasets (Reader.group self) !! "times" = Some (DFloat times) ->
  shape0 features = length times ->
  wf_index offsets (length times) ->
  (p2 < length offsets)%nat ->
  Z.of_nat (length times) <= int64_max ->
  Reader.read self from_item to_item None None
  = Ok (py_slice names (Some (Z.of_nat p1)) (Some (Z.of_nat p2 + 1)),
        map (item_slice offsets times) (seq p1 (p2 - p1 + 1)),
        map (fun p => {| ncols := ncols features;
                         rows := item_slice offsets (rows features) p |})
            (seq p1 (p2 - p1 + 1))).
Proof.
  intros Hitems Hindex Hformat Hlegacy Hfeatures Htimes Hshape Hwf Hp2 Hmax.
  pose proof (read_items_ordered _ _ _ _ _ _ Hitems) as Hp1.
  set (s1 := item_first offsets p1). set (e2 := item_last offsets p2).
  assert (Hbounds : Reader.read_bounds self p1 p2 None None
                    = Ok (offsets, s1, s1, e2)).
  { unfold Reader.read_bounds, dict_getitem. rewrite Hindex.
    cbn [bind as_int_array].
    rewrite (item_start_first offsets (length times)) by (assumption || lia).
    cbn [bind].
    rewrite (item_start_first offsets (length times)) by assumption.
    cbn [bind]. rewrite !item_end_last by lia. reflexivity. }
  assert (He2 : add64 e2 1 = e2 + 1)
    by (apply (item_end_succ offsets (length times)); assumption).
  assert (Hdata : Reader.read_data self s1 e2
                  = Ok (slice_rows features (Some s1) (Some (e2 + 1)),
                        py_slice times (Some s1) (Some (e2 + 1)))).
  { unfold Reader.read_data, group_getitem, dict_getitem.
    rewrite Hfeatures, Hformat, Htimes, Hlegacy, He2. reflexivity. }
  assert (Hsplit :
    Reader.read_split offsets p1 p2 s1
      (slice_rows features (Some s1) (Some (e2 + 1)))
      (py_slice times (Some s1) (Some (e2 + 1)))
    = (map (item_slice offsets times) (seq p1 (p2 - p1 + 1)),
       map (fun p => {| ncols := ncols features;
                        rows := item_slice offsets (rows features) p |})
           (seq p1 (p2 - p1 + 1)))).
  { unfold Reader.read_split. destruct (Nat.ltb_spec p1 p2) as [Hlt|Hge].
    - unfold np_split_rows, slice_rows. cbn [rows ncols]. subst s1 e2.
      rewrite (np_split_items offsets (length times) Hwf Hmax times)
        by (try reflexivity; lia).
      rewrite (np_split_items offsets (length times) Hwf Hmax (rows features))
        by (try assumption; lia).
      now rewrite map_map.
    - assert (p1 = p2) by lia. subst p2.
      replace (p1 - p1 + 1)%nat with 1%nat by lia. reflexivity. }
  unfold Reader.read. rewrite Hitems. cbn [bind]. rewrite Hbounds.
  cbn [bind]. rewrite Hdata. cbn [bind]. rewrite Hsplit. reflexivity.
Qed.

Lemma py_slice_app {A} (l : list A) (a b c : Z) :
  0 <= a <= b -> b <= c -> c <= Z.of_nat (length l) ->
  py_slice l (Some a) (Some b) ++ py_slice l (Some b) (Some c)
  = py_slice l (Some a) (Some c).
Proof.
  intros Hab Hbc Hc. rewrite !py_slice_in_range by lia.
  replace (drop (Z.to_nat b) l)
    with (drop (Z.to_nat b - Z.to_nat a) (drop (Z.to_nat a) l))
    by (rewrite drop_drop; f_equal; lia).
  rewrite take_take_drop. f_equal. lia.
Qed.

(** The frames of consecutive items, end to end, are the frames from the
    first frame of the first to the last frame of the last. *)
Lemma concat_item_slices {A} (offsets : list Z) (frames : list A) (p2 : nat) :
  wf_index offsets (length frames) -> (p2 < length offsets)%nat ->
  forall (n p : nat), (p + n)%nat = p2 ->
  concat (map (item_slice offsets frames) (seq p (n + 1)))
  = py_slice frames (Some (item_first offsets p))
             (Some (item_last offsets p2 + 1)).
Proof.
  intros Hwf Hp2. induction n as [|n IH]; intros p Hp.
  - assert (p = p2) by lia. subst p. simpl. now rewrite app_nil_r.
  - simpl seq. simpl map. simpl concat. rewrite IH by lia.
    unfold item_slice at 1. rewrite item_first_succ.
    pose proof (item_first_nonneg offsets _ Hwf p ltac:(lia)).
    pose proof (item_first_le_last offsets _ Hwf p ltac:(lia)).
    pose proof (item_last_mono offsets _ Hwf p p2 ltac:(lia)).
    pose proof (item_last_range offsets _ Hwf p2 Hp2).
    apply py_slice_app; lia.
Qed.

(** X20. The arrays that a read returns, put end to end, are the slice of
    the store from the first frame of [from_item] to the last frame of
    [to_item]: splitting by item loses, repeats and moves no frame and no
    time. *)
Theorem read_pieces_concat (self : Reader.t)
    (from_item to_item : option ustring) (names : list ustring) (p1 p2 : nat)
    (offsets : list Z) (times : list Q) (features : ndarray2) :
  Reader.read_items self from_item to_item = Ok (names, p1, p2) ->
  Reader.index self !! "index" = Some (VArray (DInt offsets)) ->
  Reader.index self !! "format" = Some (VAttr (AStr "dense")) ->
  Reader.legacy self = false ->
  datasets (Reader.group self) !! "features" = Some (DMat features) ->
  datasets (Reader.group self) !! "times" = Some (DFloat times) ->
  shape0 features = length times ->
  wf_index offsets (length times) ->
  (p2 < length offsets)%nat ->
  Z.of_nat (length times) <= int64_max ->
  exists items item_times item_features,
    Reader.read self from_item to_item None None
    = Ok (items, item_times, item_features) /\
    concat item_times
    = py_slice times (Some (item_first offsets p1))
               (Some (item_last offsets p2 + 1)) /\
    concat (map rows item_features)
    = py_slice (rows features) (Some (item_first offsets p1))
               (Some (item_last offsets p2 + 1)).
Proof.
  intros Hitems Hindex Hformat Hlegacy Hfeatures Htimes Hshape Hwf Hp2 Hmax.
  pose proof (read_items_ordered _ _ _ _ _ _ Hitems) as Hp1.
  do 3 eexists. split; [|split].
  - apply (read_run self from_item to_item names p1 p2 offsets times features);
      assumption.
  - apply concat_item_slices; [assumption..|lia].
  - rewrite map_map. cbn [rows].
    apply concat_item_slices; [|assumption|lia].
    unfold shape0 in Hshape. now rewrite Hshape.
Qed.

Lemma read_pieces_concat_witness :
  exists items item_times item_features,
    Reader.read abc (Some (u "b")) (Some (u "c")) None None
    = Ok (items, item_times, item_features) /\
    concat item_times
    = py_slice (times_from 1 4 ++ times_from 1 3 ++ times_from 1 2)
               (Some (item_first [3; 6; 8] 1))
               (Some (item_last [3; 6; 8] 2 + 1)) /\
    concat (map rows item_features)
    = py_slice (rows (frames_from 10 9)) (Some (item_first [3; 6; 8] 1))
               (Some (item_last [3; 6; 8] 2 + 1)).
Proof.
  apply (read_pieces_concat abc (Some (u "b")) (Some (u "c"))
           [u "a"; u "b"; u "c"] 1 2 [3; 6; 8]).
  - vm_compute. reflexivity.
  - reflexivity.
  - reflexivity.
  - reflexivity.
  - reflexivity.
  - reflexivity.
  - reflexivity.
  - exact abc_wf_index.
  - simpl. lia.
  - vm_compute. discriminate.
Defined.

(** ** Opening a store and reading it *)

Lemma nodup_first_rank (names : list ustring) (name : ustring) (p : nat) :
  NoDup names -> names !! p = Some name -> first_rank names name p.
Proof.
  intros Hnodup Hp. split; [assumption|]. intros q Hq Hname.
  pose proof (NoDup_lookup _ _ _ _ Hnodup Hname Hp). lia.
Qed.

Lemma read_items_all (self : Reader.t) (names : list ustring) :
  Reader.index self !! "items" = Some (VList names) ->
  NoDup names -> names <> [] ->
  Reader.read_items self None None
  = Ok (names, 0%nat, pred (length names)).
Proof.
  intros Hitems Hnodup Hne. unfold Reader.read_items, dict_getitem.
  rewrite Hitems. cbn [bind as_names].
  destruct names as [|first rest] eqn:E; [congruence|]. rewrite <- E in *.
  rewrite (py_getitem_last names first) by assumption. cbn [bind].
  replace (py_getitem names 0) with (Ok first) by (now rewrite E).
  cbn [bind].
  rewrite (proj2 (get_item_first_rank names first 0)).
  2:{ apply nodup_first_rank; [assumption|now rewrite E]. }
  cbn [bind].
  rewrite (proj2 (get_item_first_rank names (List.last names first)
                    (pred (length names)))).
  2:{ apply nodup_first_rank; [assumption|now apply lookup_last]. }
  reflexivity.
Qed.

(** X21. Opening a store and reading it whole. For a group of the current
    layout (it has a [version]) that holds distinct names, one
    non-decreasing offset by name, and dense features with one time by
    frame, [Reader(filename, groupname)] returns a reader, and its [read()]
    returns all the names with, for each item, the times and the frames
    between the offset of the item before and its own. *)
Theorem open_and_read_all (h5files : string -> option (gmap string Group))
    (filename groupname : string) (h5file : gmap string Group)
    (group : Group) (names : list ustring) (offsets : list Z)
    (times : list Q) (features : ndarray2) :
  h5files filename = Some h5file ->
  h5file !! groupname = Some group ->
  is_Some (attrs group !! "version") ->
  attrs group !! "format" = Some (AStr "dense") ->
  datasets group !! "items" = Some (DStr names) ->
  datasets group !! "index" = Some (DInt offsets) ->
  datasets group !! "times" = Some (DFloat times) ->
  datasets group !! "features" = Some (DMat features) ->
  NoDup names -> names <> [] ->
  length offsets = length names ->
  shape0 features = length times ->
  wf_index offsets (length times) ->
  Z.of_nat (length times) <= int64_max ->
  exists self,
    Reader.init h5files filename groupname None = Ok self /\
    Reader.read self None None None None
    = Ok (names,
          map (item_slice offsets times) (seq 0 (length names)),
          map (fun p => {| ncols := ncols features;
                           rows := item_slice offsets (rows features) p |})
              (seq 0 (length names))).
Proof.
  intros Hfile Hgroup Hversion Hformat Hitems Hindex Htimes Hfeatures
         Hnodup Hne Hlen Hshape Hwf Hmax.
  eexists. split.
  - unfold Reader.init. rewrite Hfile, Hgroup.
    rewrite bool_decide_eq_true_2 by assumption. cbn [negb].
    unfold H5features2.Index_read, group_getitem, attrs_getitem.
    rewrite Hitems, Hindex, Htimes, Hformat. cbn [bind as_str].
    reflexivity.
  - assert (Hpos : (0 < length names)%nat)
      by (destruct names; [congruence|simpl; lia]).
    rewrite (read_run _ None None names 0 (pred (length names)) offsets
               times features);
      try assumption; try reflexivity; try lia.
    + replace (pred (length names) - 0 + 1)%nat with (length names) by lia.
      f_equal. f_equal. f_equal.
      rewrite py_slice_in_range by lia.
      replace (Z.to_nat (Z.of_nat (Init.Nat.pred (length names)) + 1)
               - Z.to_nat (Z.of_nat 0))%nat with (length names) by lia.
      now rewrite take_ge by (rewrite length_drop; lia).
    + now apply read_items_all.
Qed.

Lemma abc_nodup : NoDup [u "a"; u "b"; u "c"].
Proof.
  repeat constructor;
    intros H; repeat (apply elem_of_cons in H as [H|H]; [discriminate|]);
    now apply elem_of_nil in H.
Qed.

Lemma open_and_read_all_witness :
  exists self,
    Reader.init abc_files "f.h5" "features" None = Ok self /\
    Reader.read self None None None None
    = Ok ([u "a"; u "b"; u "c"],
          map (item_slice [3; 6; 8]
                 (times_from 1 4 ++ times_from 1 3 ++ times_from 1 2))
              (seq 0 3),
          map (fun p => {| ncols := 1;
                           rows := item_slice [3; 6; 8]
                                     (rows (frames_from 10 9)) p |})
              (seq 0 3)).
Proof.
  apply (open_and_read_all abc_files "f.h5" "features"
           (<["features" := abc_group]> ∅) abc_group
           [u "a"; u "b"; u "c"] [3; 6; 8]
           (times_from 1 4 ++ times_from 1 3 ++ times_from 1 2)
           (frames_from 10 9)).
  - reflexivity.
  - reflexivity.
  - eexists. reflexivity.
  - reflexivity.
  - reflexivity.
  - reflexivity.
  - reflexivity.
  - reflexivity.
  - exact abc_nodup.
  - discriminate.
  - reflexivity.
  - reflexivity.
  - exact abc_wf_index.
  - vm_compute. discriminate.
Defined.

(** A read looks up the keys [items], [index] and [format] of the index
    and nothing else of it. *)
Lemma read_depends (self self' : Reader.t) :
  Reader.group self' = Reader.group self ->
  Reader.legacy self' = Reader.legacy self ->
  Reader.index self' !! "items" = Reader.index self !! "items" ->
  Reader.index self' !! "index" = Reader.index self !! "index" ->
  Reader.index self' !! "format" = Reader.index self !! "format" ->
  forall from_item to_item from_time to_time,
    Reader.read self' from_item to_item from_time to_time
    = Reader.read self from_item to_item from_time to_time.
Proof.
  intros Hgroup Hlegacy Hitems Hindex Hformat
         from_item to_item from_time to_time.
  unfold Reader.read, Reader.read_items, Reader.read_bounds,
    Reader.read_data, dict_getitem.
  now rewrite Hgroup, Hlegacy, Hitems, Hindex, Hformat.
Qed.

(** X22. The index given to a reader is a shortcut: when a store can be
    opened without an index, opening it with the index just read, to which
    the key [legacy] is added with the flag of that reader, gives a reader
    that answers every query as the first one does. *)
Theorem given_index_reads_alike
    (h5files : string -> option (gmap string Group))
    (filename groupname : string) (self : Reader.t) :
  Reader.init h5files filename groupname None = Ok self ->
  exists self',
    Reader.init h5files filename groupname
      (Some (<["legacy" := VBool (Reader.legacy self)]> (Reader.index self)))
    = Ok self' /\
    forall from_item to_item from_time to_time,
      Reader.read self' from_item to_item from_time to_time
      = Reader.read self from_item to_item from_time to_time.
Proof.
  unfold Reader.init. intros H.
  destruct (h5files filename) as [h5file|]; [|discriminate H].
  destruct (h5file !! groupname) as [group|]; [|discriminate H].
  step_ok H. injection H as <-. cbn [Reader.legacy Reader.index].
  unfold dict_getitem. rewrite lookup_insert_eq. cbn [bind as_bool].
  eexists. split; [reflexivity|].
  apply read_depends; cbn [Reader.group Reader.legacy Reader.index];
    try reflexivity; now rewrite lookup_insert_ne by discriminate.
Qed.

Lemma given_index_reads_alike_witness :
  exists self',
    Reader.init abc_files "f.h5" "features"
      (Some (<["legacy" := VBool (Reader.legacy abc)]> (Reader.index abc)))
    = Ok self' /\
    forall from_item to_item from_time to_time,
      Reader.read self' from_item to_item from_time to_time
      = Reader.read abc from_item to_item from_time to_time.
Proof.
  apply (given_index_reads_alike abc_files "f.h5" "features" abc).
  vm_compute. reflexivity.
Defined.

(** X23. Opening a store with a given index. The file and the group are
    checked first, with an [IOError] for a file that is not an HDF5 file
    and for a group that is not in it. The index is then taken as it is
    given, without a look at the index of the group: a missing key [legacy]
    is a [KeyError], and a boolean flag under that key gives the reader of
    the group with that flag and the given index. *)
Theorem init_given_index (h5files : string -> option (gmap string Group))
    (filename groupname : string) (index : gmap string pyval) :
  (h5files filename = None ->
   Reader.init h5files filename groupname (Some index)
   = Raise (IOError is_not_a_HDF5_file)) /\
  (forall h5file, h5files filename = Some h5file ->
     h5file !! groupname = None ->
     Reader.init h5files filename groupname (Some index)
     = Raise (IOError is_not_a_valid_group)) /\
  (forall h5file group, h5files filename = Some h5file ->
     h5file !! groupname = Some group ->
     (index !! "legacy" = None ->
      Reader.init h5files filename groupname (Some index)
      = Raise (KeyError "legacy")) /\
     (forall flag, index !! "legacy" = Some (VBool flag) ->
        Reader.init h5files filename groupname (Some index)
        = Ok {| Reader.filename := filename;
                Reader.groupname := groupname;
                Reader.group := group;
                Reader.legacy := flag;
                Reader.index := index |})).
Proof.
  unfold Reader.init. split; [intros ->; reflexivity|].
  split; [intros h5file -> ->; reflexivity|].
  intros h5file group -> ->. unfold dict_getitem. split.
  - intros ->. reflexivity.
  - intros flag ->. reflexivity.
Qed.
